(** * Import analyzer of ember-auto-import

    A shallow embedding of [packages/ember-auto-import/ts/analyzer.ts]:
    the import records, the two extractors (one walking a Babel AST, one
    walking an swc AST), the per-file store with its memoized aggregate,
    and the parser setup. *)

From Stdlib Require Import ZArith Lia.
From stdpp Require Import base decidable option list strings pretty.

Set Warnings "-register-all".

Local Open Scope string_scope.
Local Open Scope list_scope.

(** ** Thrown values

    A JavaScript error object, reduced to the two properties the analyzer
    and its callers look at. *)

Module Err.
Record t := make { name : string; message : string }.

#[global] Instance eq_dec : EqDecision t.
Proof. solve_decision. Defined.

(** [new Error(message)] *)
Definition Error (message : string) : t := make "Error" message.
(** The error the engine raises when a property of [undefined] is read
    or [undefined] is called. *)
Definition TypeError (message : string) : t := make "TypeError" message.
End Err.

Inductive outcome (A : Type) : Type :=
| Return (a : A)
| Throw (e : Err.t).
Arguments Return {A} a.
Arguments Throw {A} e.

(** ** Import records *)

Inductive TreeType :=
| app | addon | addon_templates | addon_test_support | styles | templates | test.

#[global] Instance TreeType_eq_dec : EqDecision TreeType.
Proof. solve_decision. Defined.

(** Modelled from the spec: the package descriptor ([./package] is not among
    the sources). It exposes the tracked file-extension set, the
    parser-backend selector, the major-version number of the legacy backend
    and the package name; the backend option bags are absorbed in the parse
    functions the analyzer is given. *)
Module Package.
Record t := make {
  name : string;
  useSwcParser : bool;
  babelMajorVersion : Z;
  fileExtensions : list string;
}.

#[global] Instance eq_dec : EqDecision t.
Proof. solve_decision. Defined.
End Package.

Record BaseImport := mkBase {
  path : string;
  package : Package.t;
  isDynamic : bool;
  treeType : option TreeType;
}.

Record LiteralImport := mkLiteral {
  literalBase :> BaseImport;
  specifier : string;
}.

Record TemplateImport := mkTemplate {
  templateBase :> BaseImport;
  cookedQuasis : list string;
  expressionNameHints : list (option string);
}.

Inductive Import :=
| Literal (m : LiteralImport)
| Template (m : TemplateImport).

#[global] Instance BaseImport_eq_dec : EqDecision BaseImport.
Proof. solve_decision. Defined.
#[global] Instance LiteralImport_eq_dec : EqDecision LiteralImport.
Proof. solve_decision. Defined.
#[global] Instance TemplateImport_eq_dec : EqDecision TemplateImport.
Proof. solve_decision. Defined.
#[global] Instance Import_eq_dec : EqDecision Import.
Proof. solve_decision. Defined.

Definition base (m : Import) : BaseImport :=
  match m with
  | Literal l => literalBase l
  | Template t => templateBase t
  end.

(** ['specifier' in m], ['cookedQuasis' in m], ['expressionNameHints' in m] *)
Definition has_specifier (m : Import) : bool :=
  match m with Literal _ => true | Template _ => false end.
Definition has_cookedQuasis (m : Import) : bool :=
  match m with Literal _ => false | Template _ => true end.
Definition has_expressionNameHints (m : Import) : bool :=
  match m with Literal _ => false | Template _ => true end.

(** ** The local array [imports] of [parseImports]

    Every visitor either pushes onto the array or throws; a throw abandons
    the array. *)

Definition Visit : Type := list Import → outcome (list Import).

Definition skip : Visit := λ imports, Return imports.

Definition push (m : outcome Import) : Visit := λ imports,
  match m with
  | Return m => Return (imports ++ [m])
  | Throw e => Throw e
  end.

Definition raise (e : Err.t) : Visit := λ _, Throw e.

Definition andThen (v w : Visit) : Visit := λ imports,
  match v imports with
  | Return imports' => w imports'
  | Throw e => Throw e
  end.

Infix ">>>" := andThen (at level 62, right associativity).

Definition usageError : Err.t :=
  Err.Error "import() is only allowed to contain string literals or template string literals".

(** ** Extraction from a Babel AST *)

Module Babel.

(** What the scope analysis of [@babel/traverse] knows about an identifier
    that refers to an import specifier: the module it is imported from and
    the imported name. *)
Record ImportBinding := mkBinding { source : string; imported : string }.

Record TemplateElement := mkElement { cooked : string }.

(** The node kinds the visitors distinguish. [Import_] is the node of
    type ['Import'] (the callee of [import(...)]); [Other] stands for
    every other node kind, with its child nodes in traversal order.
    The specifiers and the source literal below a declaration hold no call
    and no declaration, so they are left out. *)
Inductive Node :=
| Import_
| Identifier (name : string) (binding : option ImportBinding)
| StringLiteral (value : string)
| TemplateLiteral (quasis : list TemplateElement) (expressions : list Node)
| CallExpression (callee : Node) (arguments : list Node)
| ImportDeclaration (source : string)
| ExportNamedDeclaration (declaration : option Node) (source : option string)
| Other (children : list Node).

Record File := mkFile { body : list Node }.

(** [callee.type === 'Import'] *)
Definition isImport (callee : Node) : bool :=
  match callee with
  | Import_ => true
  | _ => false
  end.

(** [callee.isIdentifier() && callee.referencesImport(moduleSource, importName)] *)
Definition referencesImport (callee : Node) (moduleSource importName : string) : bool :=
  match callee with
  | Identifier _ (Some b) =>
      bool_decide (source b = moduleSource) && bool_decide (imported b = importName)
  | _ => false
  end.

Definition inferNameHint (exp : Node) : option string :=
  match exp with
  | Identifier name _ => Some name
  | _ => None
  end.

Section Extractor.
Variable pack : Package.t.
Variable treeType : option TreeType.

Definition processImportCallExpression
    (relativePath : string) (args : list Node) (isDynamic : bool) : outcome Import :=
  match args !! 0%nat with
  | None => Throw (Err.TypeError "Cannot read properties of undefined (reading 'type')")
  | Some argument =>
      match argument with
      | StringLiteral value =>
          Return (Literal (mkLiteral (mkBase relativePath pack isDynamic treeType) value))
      | TemplateLiteral quasis expressions =>
          match quasis with
          | [q] =>
              Return (Literal (mkLiteral (mkBase relativePath pack isDynamic treeType)
                                         (cooked q)))
          | _ =>
              Return (Template (mkTemplate (mkBase relativePath pack isDynamic treeType)
                                           (map cooked quasis)
                                           (map inferNameHint expressions)))
          end
      | _ => Throw usageError
      end
  end.

(** The three visitors handed to [traverse]. *)
Definition visitCallExpression
    (relativePath : string) (callee : Node) (arguments : list Node) : Visit :=
  if isImport callee
  then push (processImportCallExpression relativePath arguments true)
  else if referencesImport callee "@embroider/macros" "importSync"
  then push (processImportCallExpression relativePath arguments false)
  else skip.

Definition visitImportDeclaration (relativePath : string) (source : string) : Visit :=
  push (Return (Literal (mkLiteral (mkBase relativePath pack false treeType) source))).

Definition visitExportNamedDeclaration
    (relativePath : string) (source : option string) : Visit :=
  match source with
  | Some s => push (Return (Literal (mkLiteral (mkBase relativePath pack false treeType) s)))
  | None => skip
  end.

(** [traverse]: every node is entered before its children, children in
    the order of the node's visitor keys. *)
Fixpoint traverseNode (relativePath : string) (n : Node) : Visit :=
  let traverseAll :=
    fix traverseAll (ns : list Node) : Visit :=
      match ns with
      | [] => skip
      | n :: ns => traverseNode relativePath n >>> traverseAll ns
      end in
  match n with
  | CallExpression callee arguments =>
      visitCallExpression relativePath callee arguments >>>
      traverseNode relativePath callee >>>
      traverseAll arguments
  | ImportDeclaration source => visitImportDeclaration relativePath source
  | ExportNamedDeclaration declaration source =>
      visitExportNamedDeclaration relativePath source >>>
      match declaration with
      | Some d => traverseNode relativePath d
      | None => skip
      end
  | TemplateLiteral _ expressions => traverseAll expressions
  | Other children => traverseAll children
  | Import_ | Identifier _ _ | StringLiteral _ => skip
  end.

Fixpoint traverseAll (relativePath : string) (ns : list Node) : Visit :=
  match ns with
  | [] => skip
  | n :: ns => traverseNode relativePath n >>> traverseAll relativePath ns
  end.

Definition traverse (relativePath : string) (ast : File) : Visit :=
  traverseAll relativePath (body ast).

(** The visitor [traverse] calls when it enters node [n]. *)
Definition enter (relativePath : string) (n : Node) : Visit :=
  match n with
  | CallExpression callee arguments => visitCallExpression relativePath callee arguments
  | ImportDeclaration source => visitImportDeclaration relativePath source
  | ExportNamedDeclaration _ source => visitExportNamedDeclaration relativePath source
  | _ => skip
  end.

End Extractor.

(** All nodes below [n], [n] first, in the order [traverse] enters them. *)
Fixpoint nodes (n : Node) : list Node :=
  n ::
  match n with
  | CallExpression callee arguments => nodes callee ++ flat_map nodes arguments
  | ExportNamedDeclaration (Some d) _ => nodes d
  | TemplateLiteral _ expressions => flat_map nodes expressions
  | Other children => flat_map nodes children
  | _ => []
  end.

Definition fileNodes (ast : File) : list Node := flat_map nodes (body ast).

(** The arguments of a call expression the [CallExpression] visitor treats
    as an import: [import(...)] or a call of the [importSync] macro. *)
Definition importCallArguments (n : Node) : option (list Node) :=
  match n with
  | CallExpression Import_ arguments => Some arguments
  | CallExpression callee arguments =>
      if referencesImport callee "@embroider/macros" "importSync"
      then Some arguments else None
  | _ => None
  end.

Definition supportedArgument (argument : Node) : bool :=
  match argument with
  | StringLiteral _ | TemplateLiteral _ _ => true
  | _ => false
  end.

(** A template literal has one more quasi than it has expressions. *)
Definition wellFormedArgument (argument : Node) : Prop :=
  match argument with
  | TemplateLiteral quasis expressions => length quasis = S (length expressions)
  | _ => True
  end.
End Babel.

(** ** Extraction from an swc AST *)

Module Swc.

Record TemplateElement := mkElement { cooked : string }.

(** The node kinds the [ImportAnalyzer] visitor distinguishes. The callee
    of [import(...)] is an identifier named [import], as the visitor
    expects it. An argument of a call is kept as its [expression] (its
    spread marker is never read). [Other] stands for every other node kind,
    with its child nodes in the order the base [Visitor] class visits them;
    the [callee] of a [new] expression, which is one of them, is taken not
    to be named [import]. *)
Inductive Node :=
| Identifier (value : string)
| StringLiteral (value : string)
| TemplateLiteral (quasis : list TemplateElement) (expressions : list Node)
| MemberExpression (object : Node) (property : Node) (computed : bool)
| CallExpression (callee : Node) (arguments : list Node)
| ImportDeclaration (source : string)
| ExportNamedDeclaration (source : option string)
| Other (children : list Node).

Record Program := mkProgram { body : list Node }.

(** [n.callee?.value] when it is a string *)
Definition calleeValue (n : Node) : option string :=
  match n with
  | CallExpression (Identifier value) _ => Some value
  | CallExpression (StringLiteral value) _ => Some value
  | _ => None
  end.

(** [n.arguments] *)
Definition argumentsOf (n : Node) : list Node :=
  match n with
  | CallExpression _ arguments => arguments
  | _ => []
  end.

Definition swcInferNameHint (exp : Node) : option string :=
  match exp with
  | Identifier value => Some value
  | _ => None
  end.

Section ImportAnalyzer.
Variable pack : Package.t.
Variable treeType : option TreeType.

(** The node the local variable [callee] of [visitCallExpression] is
    bound to, if any. *)
Definition importCallOf (e : Node) : option Node :=
  match e with
  | CallExpression (MemberExpression object _ _) _ =>
      if bool_decide (calleeValue object = Some "import") then Some object else None
  | CallExpression (Identifier value) _ =>
      if bool_decide (value = "import") then Some e else None
  | _ => None
  end.

Definition visitCallExpression (relativePath : string) (e : Node) : Visit :=
  match importCallOf e with
  | Some callee =>
      match argumentsOf callee !! 0%nat with
      | None =>
          raise (Err.TypeError
                   "Cannot read properties of undefined (reading 'expression')")
      | Some argument =>
          match argument with
          | StringLiteral value =>
              push (Return (Literal (mkLiteral (mkBase relativePath pack true treeType)
                                               value)))
          | TemplateLiteral quasis expressions =>
              match quasis with
              | [q] =>
                  push (Return (Literal (mkLiteral
                                           (mkBase relativePath pack true treeType)
                                           (cooked q))))
              | _ =>
                  push (Return (Template (mkTemplate
                                            (mkBase relativePath pack true treeType)
                                            (map cooked quasis)
                                            (map swcInferNameHint expressions))))
              end
          | _ => raise usageError
          end
      end
  | None => skip
  end.

Definition visitImportDeclaration (relativePath : string) (source : string) : Visit :=
  push (Return (Literal (mkLiteral (mkBase relativePath pack false treeType) source))).

(** The method the analyzer declares for named exports; the dispatch below
    does not reach it. *)
Definition visitExportNamedDeclaration
    (relativePath : string) (source : option string) : Visit :=
  match source with
  | Some s => push (Return (Literal (mkLiteral (mkBase relativePath pack false treeType) s)))
  | None => skip
  end.

(** The dispatch of the base [Visitor] class of [@swc/core], as the
    releases this visitor was written against have it, with the methods the
    analyzer overrides.
    - The overriding [visitCallExpression] returns without calling the
      inherited method, so the callee and the arguments of a call
      expression are not visited.
    - The base class sends a named export to a method it spells
      [visitExportNamedDeclration]; the analyzer's
      [visitExportNamedDeclaration] is therefore never called, and the
      inherited method only walks the specifiers and the source literal,
      which hold no call.
    - The base class visits the property of a member expression only when
      it is computed, and before the object. *)
Fixpoint visitNode (relativePath : string) (n : Node) : Visit :=
  let visitAll :=
    fix visitAll (ns : list Node) : Visit :=
      match ns with
      | [] => skip
      | n :: ns => visitNode relativePath n >>> visitAll ns
      end in
  match n with
  | CallExpression _ _ => visitCallExpression relativePath n
  | ImportDeclaration source => visitImportDeclaration relativePath source
  | ExportNamedDeclaration _ => skip
  | MemberExpression object property computed =>
      (if computed then visitNode relativePath property else skip) >>>
      visitNode relativePath object
  | TemplateLiteral _ expressions => visitAll expressions
  | Other children => visitAll children
  | Identifier _ | StringLiteral _ => skip
  end.

Fixpoint visitAll (relativePath : string) (ns : list Node) : Visit :=
  match ns with
  | [] => skip
  | n :: ns => visitNode relativePath n >>> visitAll relativePath ns
  end.

Definition visitProgram (relativePath : string) (m : Program) : Visit :=
  visitAll relativePath (body m).

(** The overridden method the dispatch reaches on node [n]. *)
Definition enter (relativePath : string) (n : Node) : Visit :=
  match n with
  | CallExpression _ _ => visitCallExpression relativePath n
  | ImportDeclaration source => visitImportDeclaration relativePath source
  | _ => skip
  end.

(** The arguments of a call expression [visitCallExpression] treats as
    an import. *)
Definition importCallArguments (n : Node) : option (list Node) :=
  argumentsOf <$> importCallOf n.

End ImportAnalyzer.

(** The nodes below [n] a visit method is invoked on, [n] first, in
    order. *)
Fixpoint visited (n : Node) : list Node :=
  n ::
  match n with
  | MemberExpression object property computed =>
      (if computed then visited property else []) ++ visited object
  | TemplateLiteral _ expressions => flat_map visited expressions
  | Other children => flat_map visited children
  | _ => []
  end.

Definition programNodes (m : Program) : list Node := flat_map visited (body m).

Definition supportedArgument (argument : Node) : bool :=
  match argument with
  | StringLiteral _ | TemplateLiteral _ _ => true
  | _ => false
  end.

(** A template literal has one more quasi than it has expressions. *)
Definition wellFormedArgument (argument : Node) : Prop :=
  match argument with
  | TemplateLiteral quasis expressions => length quasis = S (length expressions)
  | _ => True
  end.
End Swc.

(** ** The store: [Map<string, Import[]>]

    A JavaScript [Map] iterates in insertion order; [set] on a key already
    present keeps its position. *)

Module JsMap.
Section Map.
Context {V : Type}.

Definition t := list (string * V).

Fixpoint get (k : string) (m : t) : option V :=
  match m with
  | [] => None
  | (k', v) :: m => if bool_decide (k' = k) then Some v else get k m
  end.

Fixpoint set (k : string) (v : V) (m : t) : t :=
  match m with
  | [] => [(k, v)]
  | (k', v') :: m =>
      if bool_decide (k' = k) then (k, v) :: m else (k', v') :: set k v m
  end.

Fixpoint delete (k : string) (m : t) : t :=
  match m with
  | [] => []
  | (k', v') :: m =>
      if bool_decide (k' = k) then delete k m else (k', v') :: delete k m
  end.

Definition values (m : t) : list V := map snd m.
End Map.
Arguments t V : clear implicits.
End JsMap.

(** ** The analyzer *)

(** The parse function [setupParser] installed: the one returned by
    [swcParser] or the one returned by [babel7Parser]. *)
Inductive Parser := swcParser | babel7Parser.

(** [File | Program] *)
Inductive Ast :=
| File (f : Babel.File)
| Program (m : Swc.Program).

(** The mutable fields of an [Analyzer] instance. ([previousTree] only feeds
    the external tree differ.) *)
Record Analyzer := mkAnalyzer {
  modules : option (list Import);
  paths : JsMap.t (list Import);
  parse : option Parser;
}.

Inductive Operation := unlink | rmdir | mkdir | change | create.

Section Analyzer.
(** The constructor arguments. *)
Variable pack : Package.t.
Variable treeType : option TreeType.

(** [parseSync] of [@swc/core] and of [@babel/core], with the options of
    [pack] applied; the latter may return [null]. *)
Variable swcParseSync : string → outcome Swc.Program.
Variable babelParseSync : string → outcome (option Babel.File).

(** [extname] of the [path] module, and the content [readFileSync] finds
    under the input directory. *)
Variable extname : string → string.
Variable readFileSync : string → string.

(** [new Analyzer(inputTree, pack, treeType)] *)
(* In the message of [setupParser] the version number prints as its decimal
   digits, as a JavaScript number of that size does. *)
Definition new : Analyzer := mkAnalyzer (Some []) [] None.

Definition setupParser (this : Analyzer) : outcome unit * Analyzer :=
  match parse this with
  | Some _ => (Return (), this)
  | None =>
      if Package.useSwcParser pack
      then (Return (), mkAnalyzer (modules this) (paths this) (Some swcParser))
      else if bool_decide (Package.babelMajorVersion pack = 7%Z)
      then (Return (), mkAnalyzer (modules this) (paths this) (Some babel7Parser))
      else (Throw (Err.Error ("don't know how to setup a parser for Babel version "
                              +:+ pretty (Package.babelMajorVersion pack)
                              +:+ " (used by " +:+ Package.name pack +:+ ")")),
            this)
  end.

(** [get imports()] *)
Definition imports (this : Analyzer) : list Import * Analyzer :=
  match modules this with
  | None =>
      let flat := concat (JsMap.values (paths this)) in
      (flat, mkAnalyzer (Some flat) (paths this) (parse this))
  | Some modules => (modules, this)
  end.

(** [s.slice(1)] *)
Definition slice1 (s : string) : string :=
  match s with
  | EmptyString => EmptyString
  | String _ s => s
  end.

Definition matchesExtension (path : string) : bool :=
  bool_decide (slice1 (extname path) ∈ Package.fileExtensions pack).

Definition removeImports (this : Analyzer) (relativePath : string) : Analyzer :=
  match JsMap.get relativePath (paths this) with
  | Some imports =>
      mkAnalyzer
        (if bool_decide (0 < length imports) then None else modules this)
        (JsMap.delete relativePath (paths this))
        (parse this)
  | None => this
  end.

(** [this.parse!(source)] *)
Definition callParse (this : Analyzer) (source : string) : outcome (option Ast) :=
  match parse this with
  | None => Throw (Err.TypeError "this.parse is not a function")
  | Some swcParser =>
      match swcParseSync source with
      | Return m => Return (Some (Program m))
      | Throw e => Throw e
      end
  | Some babel7Parser =>
      match babelParseSync source with
      | Return f => Return (File <$> f)
      | Throw e => Throw e
      end
  end.

(** The error raised when a visitor is handed the AST of the other
    backend. The casts [ast as Program] and [ast as File] are unchecked;
    on an analyzer whose parse function was installed by [setupParser]
    the mismatch does not arise (see [parser_matches] below). *)
Definition wrongAst : Err.t := Err.TypeError "unexpected AST".

Definition parseImports (this : Analyzer) (relativePath source : string)
    : outcome (list Import) :=
  let ast : outcome (option Ast) :=
    match callParse this source with
    | Return ast => Return ast
    | Throw err =>
        if bool_decide (Err.name err ≠ "SyntaxError") then Throw err else Return None
    end in
  match ast with
  | Throw err => Throw err
  | Return None => Return []
  | Return (Some ast) =>
      if Package.useSwcParser pack then
        match ast with
        | Program m => Swc.visitProgram pack treeType relativePath m []
        | File _ => Throw wrongAst
        end
      else
        match ast with
        | File f => Babel.traverse pack treeType relativePath f []
        | Program _ => Throw wrongAst
        end
  end.

Definition updateImports (this : Analyzer) (relativePath source : string)
    : outcome unit * Analyzer :=
  match parseImports this relativePath source with
  | Throw err => (Throw err, this)
  | Return newImports =>
      (* [!isEqual(this.paths.get(relativePath), newImports)] *)
      if bool_decide (JsMap.get relativePath (paths this) ≠ Some newImports)
      then (Return (),
            mkAnalyzer None (JsMap.set relativePath newImports (paths this)) (parse this))
      else (Return (), this)
  end.

(** The body of the [forEach] callback of [build], on the fields of the
    analyzer. Mirroring the file into the output directory ([unlinkSync],
    [rmdirSync], [mkdirSync], [removeSync], [symlinkOrCopy.sync]) and the
    failures of the file system are left out. *)
Definition applyOperation (this : Analyzer) (operation : Operation) (relativePath : string)
    : outcome unit * Analyzer :=
  match operation with
  | unlink =>
      if matchesExtension relativePath
      then (Return (), removeImports this relativePath)
      else (Return (), this)
  | rmdir | mkdir => (Return (), this)
  | change | create =>
      if matchesExtension relativePath
      then updateImports this relativePath (readFileSync relativePath)
      else (Return (), this)
  end.

Fixpoint applyPatch (this : Analyzer) (patch : list (Operation * string))
    : outcome unit * Analyzer :=
  match patch with
  | [] => (Return (), this)
  | (operation, relativePath) :: patch =>
      match applyOperation this operation relativePath with
      | (Return _, this) => applyPatch this patch
      | (Throw err, this) => (Throw err, this)
      end
  end.

(** [build], given the patch the tree differ computed. *)
Definition build (this : Analyzer) (patch : list (Operation * string))
    : outcome unit * Analyzer :=
  match setupParser this with
  | (Return _, this) => applyPatch this patch
  | (Throw err, this) => (Throw err, this)
  end.

End Analyzer.

(** ** Vocabulary of the statements *)

(** A node of either AST. *)
Inductive AstNode :=
| BabelNode (n : Babel.Node)
| SwcNode (n : Swc.Node).

(** The nodes of [ast] on which one of the analyzer's visitors is invoked,
    in the order of the walk. *)
Definition visitedNodes (ast : Ast) : list AstNode :=
  match ast with
  | File f => map BabelNode (Babel.fileNodes f)
  | Program m => map SwcNode (Swc.programNodes m)
  end.

(** The visitor invoked on a node. *)
Definition visit (pack : Package.t) (treeType : option TreeType) (relativePath : string)
    (n : AstNode) : Visit :=
  match n with
  | BabelNode n => Babel.enter pack treeType relativePath n
  | SwcNode n => Swc.enter pack treeType relativePath n
  end.

(** The AST is the one of the backend [pack] selects. *)
Definition ofSelectedBackend (pack : Package.t) (ast : Ast) : Prop :=
  match ast with
  | File _ => Package.useSwcParser pack = false
  | Program _ => Package.useSwcParser pack = true
  end.

(** The arguments of a node the backend's visitor treats as an import
    call. *)
Definition importCallArguments (n : AstNode) : option (list AstNode) :=
  match n with
  | BabelNode n => map BabelNode <$> Babel.importCallArguments n
  | SwcNode n => map SwcNode <$> Swc.importCallArguments n
  end.

Definition supportedArgument (argument : AstNode) : bool :=
  match argument with
  | BabelNode a => Babel.supportedArgument a
  | SwcNode a => Swc.supportedArgument a
  end.

Definition wellFormedArgument (argument : AstNode) : Prop :=
  match argument with
  | BabelNode a => Babel.wellFormedArgument a
  | SwcNode a => Swc.wellFormedArgument a
  end.

(** The first argument of an import call, when there is one, is a
    well-formed template literal or no template literal at all. *)
Definition wellFormedImportCall (n : AstNode) : Prop :=
  match importCallArguments n with
  | Some (argument :: _) => wellFormedArgument argument
  | _ => True
  end.

(** The shapes of a call argument the extraction rules tell apart: a string
    literal; a template literal, with its literal segments and, for each
    interpolated expression, the identifier it is when it is a bare
    identifier; anything else. *)
Inductive ArgumentForm :=
| StringForm (value : string)
| TemplateForm (segments : list string) (interpolations : list (option string))
| OtherForm.

Definition identifierName (n : AstNode) : option string :=
  match n with
  | BabelNode (Babel.Identifier name _) => Some name
  | SwcNode (Swc.Identifier value) => Some value
  | _ => None
  end.

Definition argumentForm (argument : AstNode) : ArgumentForm :=
  match argument with
  | BabelNode (Babel.StringLiteral value) => StringForm value
  | SwcNode (Swc.StringLiteral value) => StringForm value
  | BabelNode (Babel.TemplateLiteral quasis expressions) =>
      TemplateForm (map Babel.cooked quasis)
                   (map (λ e, identifierName (BabelNode e)) expressions)
  | SwcNode (Swc.TemplateLiteral quasis expressions) =>
      TemplateForm (map Swc.cooked quasis)
                   (map (λ e, identifierName (SwcNode e)) expressions)
  | _ => OtherForm
  end.

(** Whether a call is one of the dynamic-import keyword rather than one of
    the macro. *)
Definition isImportKeywordCall (n : AstNode) : bool :=
  match n with
  | BabelNode (Babel.CallExpression callee _) => Babel.isImport callee
  | BabelNode _ => false
  | SwcNode n => bool_decide (is_Some (Swc.importCallOf n))
  end.

(** Appending what was collected to the array, or rethrowing. *)
Definition run (o : outcome (list Import)) : Visit := λ imports,
  match o with
  | Return l => Return (imports ++ l)
  | Throw e => Throw e
  end.

(** What a sequence of visitors leaves in an array that was empty: their
    pushes in order, or the first error thrown. *)
Fixpoint collect (vs : list Visit) : outcome (list Import) :=
  match vs with
  | [] => Return []
  | v :: vs =>
      match v [] with
      | Return l =>
          match collect vs with
          | Return ls => Return (l ++ ls)
          | Throw e => Throw e
          end
      | Throw e => Throw e
      end
  end.

(** A visitor that only appends to the array it is given. *)
Definition appending (v : Visit) : Prop :=
  ∀ imports, v imports = run (v []) imports.

(** A walk that amounts to running the visitors [vs] one after the other. *)
Definition decomposes (v : Visit) (vs : list Visit) : Prop :=
  ∀ imports, v imports = run (collect vs) imports.

(** The parse function, once installed, is the one [pack] asks for. *)
Definition parserMatches (pack : Package.t) (this : Analyzer) : Prop :=
  match parse this with
  | None => True
  | Some swcParser => Package.useSwcParser pack = true
  | Some babel7Parser =>
      Package.useSwcParser pack = false ∧ Package.babelMajorVersion pack = 7%Z
  end.

(** The record invariant of the data model. *)
Definition quasisMatchHints (m : Import) : Prop :=
  match m with
  | Literal _ => True
  | Template t => length (cookedQuasis t) = S (length (expressionNameHints t))
  end.

(** The states an analyzer goes through. *)
Inductive reachable (pack : Package.t) (treeType : option TreeType)
    (swcParseSync : string → outcome Swc.Program)
    (babelParseSync : string → outcome (option Babel.File)) : Analyzer → Prop :=
| reachable_new : reachable pack treeType swcParseSync babelParseSync new
| reachable_setupParser this :
    reachable pack treeType swcParseSync babelParseSync this →
    reachable pack treeType swcParseSync babelParseSync (snd (setupParser pack this))
| reachable_imports this :
    reachable pack treeType swcParseSync babelParseSync this →
    reachable pack treeType swcParseSync babelParseSync (snd (imports this))
| reachable_removeImports this relativePath :
    reachable pack treeType swcParseSync babelParseSync this →
    reachable pack treeType swcParseSync babelParseSync (removeImports this relativePath)
| reachable_updateImports this relativePath source :
    reachable pack treeType swcParseSync babelParseSync this →
    reachable pack treeType swcParseSync babelParseSync
      (snd (updateImports pack treeType swcParseSync babelParseSync this relativePath source)).

(** ** Sample packages, files and parsers *)

Definition babelPackage : Package.t := Package.make "my-app" false 7 ["js"; "ts"].
Definition swcPackage : Package.t := Package.make "my-app" true 7 ["js"; "ts"].
Definition babel6Package : Package.t := Package.make "my-addon" false 6 ["js"].

Definition macroSource : string :=
  "import { importSync } from '@embroider/macros'; importSync('foo');".
Definition nestedSource : string := "load(import('bar'));".
Definition templateSource : string := "import(`bar-${x}`);".
Definition unsupportedSource : string := "import(someFn());".
Definition unsupportedMacroSource : string :=
  "import { importSync } from '@embroider/macros'; importSync(someFn());".
Definition missingArgumentSource : string :=
  "import { importSync } from '@embroider/macros'; importSync(); import(someFn());".
Definition declarationsSource : string :=
  "import Foo from 'bar'; export { a } from 'pkg'; const b = 1; export { b };".
Definition emptySource : string := "".
Definition brokenSource : string := "import {".

Definition importSyncIdentifier : Babel.Node :=
  Babel.Identifier "importSync" (Some (Babel.mkBinding "@embroider/macros" "importSync")).

(** The Babel AST of [unsupportedSource] and of [declarationsSource], the
    swc AST of [templateSource]. *)
Definition someFnCall : Babel.Node :=
  Babel.CallExpression (Babel.Identifier "someFn" None) [].
Definition unsupportedCall : Babel.Node := Babel.CallExpression Babel.Import_ [someFnCall].
Definition unsupportedFile : Babel.File := Babel.mkFile [Babel.Other [unsupportedCall]].
Definition declarationsFile : Babel.File :=
  Babel.mkFile
    [Babel.ImportDeclaration "bar";
     Babel.ExportNamedDeclaration None (Some "pkg");
     Babel.Other [Babel.Other [Babel.Identifier "b" None; Babel.Other []]];
     Babel.ExportNamedDeclaration None None].
Definition templateCall : Swc.Node :=
  Swc.CallExpression (Swc.Identifier "import")
    [Swc.TemplateLiteral [Swc.mkElement "bar-"; Swc.mkElement ""] [Swc.Identifier "x"]].
Definition templateProgram : Swc.Program := Swc.mkProgram [Swc.Other [templateCall]].

(** What [parseSync] of [@babel/core] returns on the sample sources; a
    source it cannot parse is a [SyntaxError]. *)
Definition sampleBabelParseSync (source : string) : outcome (option Babel.File) :=
  if bool_decide (source = macroSource) then
    Return (Some (Babel.mkFile
      [Babel.ImportDeclaration "@embroider/macros";
       Babel.Other [Babel.CallExpression importSyncIdentifier [Babel.StringLiteral "foo"]]]))
  else if bool_decide (source = nestedSource) then
    Return (Some (Babel.mkFile
      [Babel.Other [Babel.CallExpression (Babel.Identifier "load" None)
                      [Babel.CallExpression Babel.Import_ [Babel.StringLiteral "bar"]]]]))
  else if bool_decide (source = templateSource) then
    Return (Some (Babel.mkFile
      [Babel.Other [Babel.CallExpression Babel.Import_
                      [Babel.TemplateLiteral [Babel.mkElement "bar-"; Babel.mkElement ""]
                                             [Babel.Identifier "x" None]]]]))
  else if bool_decide (source = unsupportedSource) then Return (Some unsupportedFile)
  else if bool_decide (source = unsupportedMacroSource) then
    Return (Some (Babel.mkFile
      [Babel.ImportDeclaration "@embroider/macros";
       Babel.Other [Babel.CallExpression importSyncIdentifier [someFnCall]]]))
  else if bool_decide (source = missingArgumentSource) then
    Return (Some (Babel.mkFile
      [Babel.ImportDeclaration "@embroider/macros";
       Babel.Other [Babel.CallExpression importSyncIdentifier []];
       Babel.Other [unsupportedCall]]))
  else if bool_decide (source = declarationsSource) then Return (Some declarationsFile)
  else if bool_decide (source = emptySource) then
    Return (Some (Babel.mkFile []))
  else Throw (Err.make "SyntaxError" "Unexpected token").

(** What [parseSync] of [@swc/core] returns on the sample sources; a
    source it cannot parse is a plain [Error]. *)
Definition sampleSwcParseSync (source : string) : outcome Swc.Program :=
  if bool_decide (source = macroSource) then
    Return (Swc.mkProgram
      [Swc.ImportDeclaration "@embroider/macros";
       Swc.Other [Swc.CallExpression (Swc.Identifier "importSync") [Swc.StringLiteral "foo"]]])
  else if bool_decide (source = nestedSource) then
    Return (Swc.mkProgram
      [Swc.Other [Swc.CallExpression (Swc.Identifier "load")
                    [Swc.CallExpression (Swc.Identifier "import") [Swc.StringLiteral "bar"]]]])
  else if bool_decide (source = templateSource) then Return templateProgram
  else if bool_decide (source = unsupportedSource) then
    Return (Swc.mkProgram
      [Swc.Other [Swc.CallExpression (Swc.Identifier "import")
                    [Swc.CallExpression (Swc.Identifier "someFn") []]]])
  else if bool_decide (source = unsupportedMacroSource) then
    Return (Swc.mkProgram
      [Swc.ImportDeclaration "@embroider/macros";
       Swc.Other [Swc.CallExpression (Swc.Identifier "importSync")
                    [Swc.CallExpression (Swc.Identifier "someFn") []]]])
  else if bool_decide (source = missingArgumentSource) then
    Return (Swc.mkProgram
      [Swc.ImportDeclaration "@embroider/macros";
       Swc.Other [Swc.CallExpression (Swc.Identifier "importSync") []];
       Swc.Other [Swc.CallExpression (Swc.Identifier "import")
                    [Swc.CallExpression (Swc.Identifier "someFn") []]]])
  else if bool_decide (source = declarationsSource) then
    Return (Swc.mkProgram
      [Swc.ImportDeclaration "bar";
       Swc.ExportNamedDeclaration (Some "pkg");
       Swc.Other [Swc.Other [Swc.Identifier "b"; Swc.Other []]];
       Swc.ExportNamedDeclaration None])
  else if bool_decide (source = emptySource) then
    Return (Swc.mkProgram [])
  else Throw (Err.Error "failed to parse module").

Definition sampleExtname (path : string) : string := ".js".

(** The analyzers of the sample packages after [setupParser]. *)
Definition babelAnalyzer : Analyzer := snd (setupParser babelPackage new).
Definition swcAnalyzer : Analyzer := snd (setupParser swcPackage new).

Definition literal (pack : Package.t) (relativePath : string) (isDynamic : bool)
    (specifier : string) : Import :=
  Literal (mkLiteral (mkBase relativePath pack isDynamic None) specifier).

(** What the walk finds in [declarationsSource], and an analyzer that has
    it stored for ["a.js"], next to a file without imports. *)
Definition declarationsFound : list Import :=
  [literal babelPackage "a.js" false "bar"; literal babelPackage "a.js" false "pkg"].
Definition storedAnalyzer : Analyzer :=
  mkAnalyzer (Some declarationsFound) [("a.js", declarationsFound); ("b.js", [])]
             (Some babel7Parser).

(** ** The option bag handed to the swc parser *)

(** The values of an option bag. *)
Inductive JsValue :=
| JsBool (b : bool)
| JsString (s : string)
| JsNumber (z : Z).

(** [Object.assign(target, source)] on objects with string keys: every own
    property of [source], in order, is set on [target]. *)
Definition objectAssign (target source : JsMap.t JsValue) : JsMap.t JsValue :=
  foldl (λ t kv, JsMap.set kv.1 kv.2 t) target source.

(** The second argument [swcParser] passes to [parseSync]. *)
Definition swcParseOptions (swcOptions : JsMap.t JsValue) : JsMap.t JsValue :=
  objectAssign [("dynamicImport", JsBool true); ("decorators", JsBool true)] swcOptions.

(** ** Invariants of the store *)

(** A [Map] holds a key once. *)
Definition keysUnique (this : Analyzer) : Prop :=
  NoDup (map fst (paths this)).

(** A cached aggregate is the flattening of the store. *)
Definition cacheCoherent (this : Analyzer) : Prop :=
  match modules this with
  | Some cached => cached = concat (JsMap.values (paths this))
  | None => True
  end.

(** The base fields every record of a file carries: the path of the file
    and the package and tree type the analyzer was constructed with. *)
Definition taggedWith (relativePath : string) (pack : Package.t) (tag : option TreeType)
    (m : Import) : Prop :=
  path (base m) = relativePath ∧ package (base m) = pack ∧ treeType (base m) = tag.

(** The paths a patch creates or changes. *)
Definition updatedPaths (patch : list (Operation * string)) : list string :=
  flat_map (λ op, match op.1 with
                  | create | change => [op.2]
                  | unlink | rmdir | mkdir => []
                  end) patch.

(** An [extname] for a tree of style sheets, and a patch over it. *)
Definition cssExtname (path : string) : string := ".css".
Definition cssPatch : list (Operation * string) :=
  [(mkdir, "styles"); (create, "styles/app.css"); (change, "styles/app.css");
   (unlink, "styles/old.css"); (rmdir, "vendor")].

(** The analyzer after ["a.js"] was created with [declarationsSource], and
    after ["b.js"] was then created with [templateSource]; what the walk
    finds in [templateSource] and in [macroSource]. *)
Definition updatedAnalyzer : Analyzer :=
  snd (updateImports babelPackage None sampleSwcParseSync sampleBabelParseSync
         babelAnalyzer "a.js" declarationsSource).
Definition twoFilesAnalyzer : Analyzer :=
  snd (updateImports babelPackage None sampleSwcParseSync sampleBabelParseSync
         updatedAnalyzer "b.js" templateSource).
Definition templateFound : list Import :=
  [Template (mkTemplate (mkBase "b.js" babelPackage true None) ["bar-"; ""] [Some "x"])].
Definition macroFound : list Import :=
  [literal babelPackage "a.js" false "@embroider/macros";
   literal babelPackage "a.js" false "foo"].

(** An option bag that asks for TypeScript without decorators. *)
Definition sampleSwcOptions : JsMap.t JsValue :=
  [("syntax", JsString "typescript"); ("decorators", JsBool false)].

(** The patch of a first build of two files, and the patch of a rebuild
    that finds both touched. *)
Definition firstPatch : list (Operation * string) :=
  [(mkdir, "lib"); (create, "a.js"); (create, "lib/b.js")].
Definition secondPatch : list (Operation * string) :=
  [(change, "lib/b.js"); (change, "a.js")].

(** The content of the two files, and the analyzer after the first build. *)
Definition sampleReadFileSync (path : string) : string :=
  if bool_decide (path = "a.js") then declarationsSource
  else if bool_decide (path = "lib/b.js") then templateSource
  else emptySource.
Definition builtAnalyzer : Analyzer :=
  snd (applyPatch babelPackage None sampleSwcParseSync sampleBabelParseSync
         sampleExtname sampleReadFileSync babelAnalyzer firstPatch).

(** * Properties *)

(** ** Visitors only append *)

Lemma appending_skip : appending skip.
Proof. intros imports. unfold skip, run. by rewrite app_nil_r. Qed.

Lemma appending_push o : appending (push o).
Proof. intros imports. by destruct o. Qed.

Lemma appending_raise e : appending (raise e).
Proof. by intros imports. Qed.

Lemma collect_app vs ws :
  collect (vs ++ ws) =
  match collect vs with
  | Return l => run (collect ws) l
  | Throw e => Throw e
  end.
Proof.
  induction vs as [|v vs IH]; simpl.
  - by destruct (collect ws).
  - destruct (v []) as [l|e]; [|done].
    rewrite IH. destruct (collect vs) as [ls|e]; [|done].
    unfold run. destruct (collect ws); [|done]. by rewrite app_assoc.
Qed.

Lemma decomposes_skip : decomposes skip [].
Proof. intros imports. apply appending_skip. Qed.

Lemma decomposes_single v : appending v → decomposes v [v].
Proof.
  intros Hv imports. rewrite Hv. simpl.
  destruct (v []); [|done]. by rewrite app_nil_r.
Qed.

Lemma decomposes_andThen v w vs ws :
  decomposes v vs → decomposes w ws → decomposes (v >>> w) (vs ++ ws).
Proof.
  intros Hv Hw imports. unfold andThen. rewrite Hv, collect_app.
  destruct (collect vs) as [l|e]; simpl; [|done].
  rewrite Hw. unfold run. destruct (collect ws); [|done]. by rewrite app_assoc.
Qed.

Lemma decomposes_skip_cons v vs : decomposes v vs → decomposes v (skip :: vs).
Proof.
  intros Hv imports. rewrite Hv. simpl. by destruct (collect vs).
Qed.

Lemma decomposes_nil v vs : decomposes v vs → v [] = collect vs.
Proof. intros Hv. rewrite Hv. unfold run. by destruct (collect vs). Qed.

Module BabelFacts.
Import Babel.

Lemma babel_Node_ind (P : Node → Prop) :
  P Import_ →
  (∀ name binding, P (Identifier name binding)) →
  (∀ value, P (StringLiteral value)) →
  (∀ quasis expressions, Forall P expressions → P (TemplateLiteral quasis expressions)) →
  (∀ callee arguments, P callee → Forall P arguments → P (CallExpression callee arguments)) →
  (∀ source, P (ImportDeclaration source)) →
  (∀ source, P (ExportNamedDeclaration None source)) →
  (∀ d source, P d → P (ExportNamedDeclaration (Some d) source)) →
  (∀ children, Forall P children → P (Other children)) →
  ∀ n, P n.
Proof.
  intros HI HId HS HT HC HD HE0 HE1 HO.
  fix IH 1. intros [| | |quasis es|callee args|source|[d|] source|cs].
  - exact HI.
  - apply HId.
  - apply HS.
  - apply HT. induction es; constructor; [apply IH|assumption].
  - apply HC; [apply IH|]. induction args; constructor; [apply IH|assumption].
  - apply HD.
  - apply HE1, IH.
  - apply HE0.
  - apply HO. induction cs; constructor; [apply IH|assumption].
Qed.

Section Facts.
Variable pack : Package.t.
Variable treeType : option TreeType.

Lemma babel_appending_visitCallExpression relativePath callee arguments :
  appending (visitCallExpression pack treeType relativePath callee arguments).
Proof.
  unfold visitCallExpression.
  destruct (isImport callee); [apply appending_push|].
  destruct (referencesImport _ _ _); auto using appending_push, appending_skip.
Qed.

Lemma babel_appending_enter relativePath n :
  appending (enter pack treeType relativePath n).
Proof.
  destruct n as [| | | | | |d [s|]|]; simpl;
    auto using appending_skip, appending_push, babel_appending_visitCallExpression.
  all: apply appending_push || apply appending_skip.
Qed.

Lemma traverseAll_decomposes relativePath ns :
  Forall (λ n, decomposes (traverseNode pack treeType relativePath n)
                          (map (enter pack treeType relativePath) (nodes n))) ns →
  decomposes (traverseAll pack treeType relativePath ns)
             (map (enter pack treeType relativePath) (flat_map nodes ns)).
Proof.
  induction 1 as [|n ns Hn _ IH]; simpl.
  - apply decomposes_skip.
  - rewrite map_app. by apply decomposes_andThen.
Qed.

Lemma traverseNode_inner relativePath ns :
  (fix traverseAll (ns : list Node) : Visit :=
     match ns with
     | [] => skip
     | n :: ns => traverseNode pack treeType relativePath n >>> traverseAll ns
     end) ns = traverseAll pack treeType relativePath ns.
Proof. induction ns as [|n ns IH]; simpl; [done|]. by rewrite IH. Qed.

Lemma traverseNode_decomposes relativePath n :
  decomposes (traverseNode pack treeType relativePath n)
             (map (enter pack treeType relativePath) (nodes n)).
Proof.
  induction n as [| | |quasis es IH|callee args IHc IHa|src|src|d src IH|cs IH]
    using babel_Node_ind; simpl;
    rewrite ?traverseNode_inner;
    try (apply decomposes_single, appending_skip).
  - by apply decomposes_skip_cons, traverseAll_decomposes.
  - apply (decomposes_andThen _ _ [_]);
      [apply decomposes_single, babel_appending_visitCallExpression|].
    rewrite map_app. apply decomposes_andThen; [done|].
    by apply traverseAll_decomposes.
  - apply decomposes_single, appending_push.
  - apply (decomposes_andThen _ _ [_] []);
      [apply decomposes_single, (babel_appending_enter _ (ExportNamedDeclaration None src))
      |apply decomposes_skip].
  - apply (decomposes_andThen _ _ [_]); [|done].
    apply decomposes_single, (babel_appending_enter _ (ExportNamedDeclaration None src)).
  - by apply decomposes_skip_cons, traverseAll_decomposes.
Qed.

Lemma traverse_collect relativePath ast :
  traverse pack treeType relativePath ast [] =
  collect (map (enter pack treeType relativePath) (fileNodes ast)).
Proof.
  apply decomposes_nil, traverseAll_decomposes, Forall_forall.
  intros n _. apply traverseNode_decomposes.
Qed.
End Facts.
End BabelFacts.

Module SwcFacts.
Import Swc.

Lemma swc_Node_ind (P : Node → Prop) :
  (∀ value, P (Identifier value)) →
  (∀ value, P (StringLiteral value)) →
  (∀ quasis expressions, Forall P expressions → P (TemplateLiteral quasis expressions)) →
  (∀ object property computed,
     P object → P property → P (MemberExpression object property computed)) →
  (∀ callee arguments, P callee → Forall P arguments → P (CallExpression callee arguments)) →
  (∀ source, P (ImportDeclaration source)) →
  (∀ source, P (ExportNamedDeclaration source)) →
  (∀ children, Forall P children → P (Other children)) →
  ∀ n, P n.
Proof.
  intros HId HS HT HM HC HD HE HO.
  fix IH 1.
  intros [value|value|quasis es|object property computed|callee args|source|source|cs].
  - apply HId.
  - apply HS.
  - apply HT. induction es; constructor; [apply IH|assumption].
  - apply HM; apply IH.
  - apply HC; [apply IH|]. induction args; constructor; [apply IH|assumption].
  - apply HD.
  - apply HE.
  - apply HO. induction cs; constructor; [apply IH|assumption].
Qed.

Section Facts.
Variable pack : Package.t.
Variable treeType : option TreeType.

Lemma swc_appending_visitCallExpression relativePath e :
  appending (visitCallExpression pack treeType relativePath e).
Proof.
  unfold visitCallExpression.
  destruct (importCallOf e) as [callee|]; [|apply appending_skip].
  destruct (argumentsOf callee !! 0%nat) as [[| |[|? [|? ?]] ?| | | | |]|];
    apply appending_push || apply appending_raise.
Qed.

Lemma swc_appending_enter relativePath n :
  appending (enter pack treeType relativePath n).
Proof.
  destruct n; simpl;
    auto using appending_skip, appending_push, swc_appending_visitCallExpression.
  all: apply appending_push || apply appending_skip.
Qed.

Lemma visitAll_decomposes relativePath ns :
  Forall (λ n, decomposes (visitNode pack treeType relativePath n)
                          (map (enter pack treeType relativePath) (visited n))) ns →
  decomposes (visitAll pack treeType relativePath ns)
             (map (enter pack treeType relativePath) (flat_map visited ns)).
Proof.
  induction 1 as [|n ns Hn _ IH]; simpl.
  - apply decomposes_skip.
  - rewrite map_app. by apply decomposes_andThen.
Qed.

Lemma visitNode_inner relativePath ns :
  (fix visitAll (ns : list Node) : Visit :=
     match ns with
     | [] => skip
     | n :: ns => visitNode pack treeType relativePath n >>> visitAll ns
     end) ns = visitAll pack treeType relativePath ns.
Proof. induction ns as [|n ns IH]; simpl; [done|]. by rewrite IH. Qed.

Lemma visitNode_decomposes relativePath n :
  decomposes (visitNode pack treeType relativePath n)
             (map (enter pack treeType relativePath) (visited n)).
Proof.
  induction n
    as [| |quasis es IH|object property computed IHo IHp|callee args _ _|src|src|cs IH]
    using swc_Node_ind; simpl;
    rewrite ?visitNode_inner;
    try (apply decomposes_single, appending_skip).
  - by apply decomposes_skip_cons, visitAll_decomposes.
  - rewrite map_app. apply decomposes_skip_cons, decomposes_andThen; [|done].
    destruct computed; [done|apply decomposes_skip].
  - apply decomposes_single, swc_appending_visitCallExpression.
  - apply decomposes_single, appending_push.
  - by apply decomposes_skip_cons, visitAll_decomposes.
Qed.

Lemma visitProgram_collect relativePath m :
  visitProgram pack treeType relativePath m [] =
  collect (map (enter pack treeType relativePath) (programNodes m)).
Proof.
  apply decomposes_nil, visitAll_decomposes, Forall_forall.
  intros n _. apply visitNode_decomposes.
Qed.
End Facts.
End SwcFacts.

(** ** The walk of [parseImports] *)

Section AnalyzerFacts.
Variable pack : Package.t.
Variable treeType : option TreeType.
Variable swcParseSync : string → outcome Swc.Program.
Variable babelParseSync : string → outcome (option Babel.File).

Local Abbreviation callParse := (callParse swcParseSync babelParseSync).
Local Abbreviation parseImports := (parseImports pack treeType swcParseSync babelParseSync).
Local Abbreviation updateImports := (updateImports pack treeType swcParseSync babelParseSync).

Lemma parseImports_collect this relativePath source ast :
  callParse this source = Return (Some ast) →
  ofSelectedBackend pack ast →
  parseImports this relativePath source =
  collect (map (visit pack treeType relativePath) (visitedNodes ast)).
Proof.
  intros Hparse Hsel. unfold parseImports. rewrite Hparse.
  destruct ast as [f|m]; simpl in *; rewrite Hsel, map_map; simpl.
  - apply BabelFacts.traverse_collect.
  - apply SwcFacts.visitProgram_collect.
Qed.
End AnalyzerFacts.

(** ** What a walk collects *)

Lemma collect_Forall (P : Import → Prop) vs imports :
  Forall (λ v : Visit, ∀ l, v [] = Return l → Forall P l) vs →
  collect vs = Return imports →
  Forall P imports.
Proof.
  intros Hvs. revert imports.
  induction Hvs as [|v vs Hv _ IH]; simpl; intros imports Hc.
  - by simplify_eq.
  - destruct (v []) as [l|]; [|done].
    destruct (collect vs) as [ls|]; [|done]. simplify_eq.
    apply Forall_app; auto.
Qed.

Lemma collect_throws e vs v :
  Forall (λ w : Visit, ∀ e', w [] = Throw e' → e' = e) vs →
  v ∈ vs → v [] = Throw e →
  collect vs = Throw e.
Proof.
  intros Hvs Hin Hv.
  induction Hvs as [|w vs Hw _ IH]; [by apply elem_of_nil in Hin|].
  simpl. destruct (w []) as [l|e'] eqn:Hwe.
  - apply elem_of_cons in Hin as [->|Hin]; [congruence|].
    by rewrite IH.
  - by rewrite (Hw e').
Qed.

Lemma collect_split before v after imports :
  collect (before ++ v :: after) = Return imports →
  ∃ l1 l l2,
    collect before = Return l1 ∧ v [] = Return l ∧ collect after = Return l2 ∧
    imports = l1 ++ l ++ l2.
Proof.
  rewrite collect_app. simpl.
  destruct (collect before) as [l1|]; [|done].
  destruct (v []) as [l|]; [|done].
  destruct (collect after) as [l2|]; [|done].
  simpl. intros ?; simplify_eq. by exists l1, l, l2.
Qed.

Section VisitFacts.
Variable pack : Package.t.
Variable treeType : option TreeType.

Local Abbreviation visit := (visit pack treeType).
Local Abbreviation processImportCallExpression :=
  (Babel.processImportCallExpression pack treeType).

Lemma babel_no_import_call relativePath callee arguments :
  Babel.importCallArguments (Babel.CallExpression callee arguments) = None →
  Babel.visitCallExpression pack treeType relativePath callee arguments = skip.
Proof.
  unfold Babel.visitCallExpression, Babel.importCallArguments.
  destruct callee; cbn [Babel.isImport]; try done;
    by destruct (Babel.referencesImport _ _ _).
Qed.

(** On a node it treats as an import call, the Babel visitor pushes what
    [processImportCallExpression] returns; the flag tells [import(...)]
    from the macro. *)
Lemma babel_enter_import_call relativePath n args :
  Babel.importCallArguments n = Some args →
  ∃ callee,
    n = Babel.CallExpression callee args ∧
    Babel.enter pack treeType relativePath n =
    push (processImportCallExpression relativePath args
            (Babel.isImport callee)).
Proof.
  destruct n as [| | | |callee arguments| | |]; try done.
  simpl. unfold Babel.visitCallExpression. intros Hargs.
  exists callee.
  destruct callee; try (destruct (Babel.referencesImport _ _ _); [|done]);
    by simplify_eq.
Qed.

Lemma swc_importCallOf_import args :
  Swc.importCallOf (Swc.CallExpression (Swc.Identifier "import") args) =
  Some (Swc.CallExpression (Swc.Identifier "import") args).
Proof. unfold Swc.importCallOf. by rewrite bool_decide_eq_true_2. Qed.

(** On a node it treats as an import call, the swc visitor does what it
    does on the plain call [import(args)]. *)
Lemma swc_enter_import_call relativePath n args :
  Swc.importCallArguments n = Some args →
  Swc.enter pack treeType relativePath n =
  Swc.visitCallExpression pack treeType relativePath
    (Swc.CallExpression (Swc.Identifier "import") args).
Proof.
  unfold Swc.importCallArguments. intros Hargs.
  destruct n as [| | | |callee arguments| | |]; try done.
  unfold Swc.enter, Swc.visitCallExpression.
  rewrite swc_importCallOf_import.
  destruct (Swc.importCallOf _) as [c|]; by simplify_eq/=.
Qed.

Lemma importCallArguments_babel n args :
  importCallArguments (BabelNode n) = Some args →
  ∃ args', Babel.importCallArguments n = Some args' ∧ args = map BabelNode args'.
Proof.
  simpl. destruct (Babel.importCallArguments n) as [args'|]; [|done].
  intros ?; simplify_eq/=. by exists args'.
Qed.

Lemma importCallArguments_swc n args :
  importCallArguments (SwcNode n) = Some args →
  ∃ args', Swc.importCallArguments n = Some args' ∧ args = map SwcNode args'.
Proof.
  simpl. destruct (Swc.importCallArguments n) as [args'|]; [|done].
  intros ?; simplify_eq/=. by exists args'.
Qed.

Lemma visit_unsupported relativePath n argument rest :
  importCallArguments n = Some (argument :: rest) →
  supportedArgument argument = false →
  visit relativePath n [] = Throw usageError.
Proof.
  destruct n as [n|n]; intros Hargs Hsup.
  - apply importCallArguments_babel in Hargs as ([|a args] & Hargs & ?); simplify_eq/=.
    destruct (babel_enter_import_call relativePath _ _ Hargs) as (callee & _ & ->).
    by destruct a.
  - apply importCallArguments_swc in Hargs as ([|a args] & Hargs & ?); simplify_eq/=.
    rewrite (swc_enter_import_call relativePath _ _ Hargs).
    unfold Swc.visitCallExpression. rewrite swc_importCallOf_import.
    by destruct a.
Qed.

(** A visitor throws nothing but the usage error, unless an import call
    has no argument at all. *)
Lemma visit_throws relativePath n e :
  visit relativePath n [] = Throw e →
  importCallArguments n ≠ Some [] →
  e = usageError.
Proof.
  destruct n as [n|n]; simpl.
  - destruct (Babel.importCallArguments n) as [args|] eqn:Hargs.
    + destruct (babel_enter_import_call relativePath _ _ Hargs) as (callee & -> & Hen).
      simpl in Hen. simpl. rewrite Hen.
      destruct args as [|a args]; [done|].
      intros He _. destruct a as [| | |[|q [|q' qs]] es| | | |]; unfold raise, push in He; by simplify_eq/=.
    + destruct n as [| | | |callee arguments| |d [s|]| ]; try done.
      unfold visit, Babel.enter. by rewrite babel_no_import_call.
  - destruct (Swc.importCallArguments n) as [args|] eqn:Hargs.
    + rewrite (swc_enter_import_call relativePath _ _ Hargs).
      unfold Swc.visitCallExpression. rewrite swc_importCallOf_import.
      destruct args as [|a args]; [done|].
      intros He _. destruct a as [| |[|q [|q' qs]] es| | | | |]; unfold raise, push in He; by simplify_eq/=.
    + unfold Swc.importCallArguments in Hargs.
      destruct n as [| | | |callee arguments| |[s|]| ]; try done.
      unfold Swc.enter, Swc.visitCallExpression.
      by destruct (Swc.importCallOf _).
Qed.

Lemma visit_invariant relativePath n l :
  wellFormedImportCall n →
  visit relativePath n [] = Return l →
  Forall (λ m, quasisMatchHints m ∧
               has_specifier m = negb (has_cookedQuasis m) ∧
               has_cookedQuasis m = has_expressionNameHints m) l.
Proof.
  unfold wellFormedImportCall.
  destruct n as [n|n]; simpl.
  - destruct (Babel.importCallArguments n) as [args|] eqn:Hargs.
    + destruct (babel_enter_import_call relativePath _ _ Hargs) as (callee & -> & Hen).
      simpl in Hen. simpl. rewrite Hen.
      destruct args as [|a args]; [done|]. simpl.
      destruct a as [| | |[|q [|q' qs]] es| | | |]; unfold raise, push; simpl;
        intros Hwf Hl; simplify_eq; apply Forall_singleton; simpl; repeat split;
        rewrite ?length_map; done || lia.
    + intros _.
      destruct n as [| | | |callee arguments| |d [s|]| ];
        unfold Babel.enter, Babel.visitImportDeclaration,
          Babel.visitExportNamedDeclaration, push, skip;
        intros Hl; simplify_eq;
        try apply Forall_nil_2; try by apply Forall_singleton.
      rewrite babel_no_import_call in Hl by done. unfold skip in Hl.
      simplify_eq. apply Forall_nil_2.
  - destruct (Swc.importCallArguments n) as [args|] eqn:Hargs.
    + rewrite (swc_enter_import_call relativePath _ _ Hargs).
      unfold Swc.visitCallExpression. rewrite swc_importCallOf_import.
      destruct args as [|a args]; [done|]. simpl.
      destruct a as [| |[|q [|q' qs]] es| | | | |]; unfold raise, push; simpl;
        intros Hwf Hl; simplify_eq; apply Forall_singleton; simpl; repeat split;
        rewrite ?length_map; done || lia.
    + intros _. unfold Swc.importCallArguments in Hargs.
      destruct n as [| | | |callee arguments| |[s|]| ];
        unfold Swc.enter, Swc.visitCallExpression, Swc.visitImportDeclaration,
          Swc.visitExportNamedDeclaration, push, skip;
        intros Hl; simplify_eq;
        try apply Forall_nil_2; try by apply Forall_singleton.
      destruct (Swc.importCallOf _); simplify_eq/=. apply Forall_nil_2.
Qed.
End VisitFacts.

(** ** The store *)

Module JsMapFacts.
Section Facts.
Context {V : Type}.
Implicit Types (m : JsMap.t V) (k : string) (v : V).

Lemma get_set_eq k v m : JsMap.get k (JsMap.set k v m) = Some v.
Proof.
  induction m as [|[k' v'] m IH]; simpl.
  - by rewrite bool_decide_eq_true_2.
  - destruct (bool_decide (k' = k)) eqn:Hk; simpl.
    + by rewrite bool_decide_eq_true_2.
    + by rewrite Hk.
Qed.

Lemma get_set_ne k k' v m :
  k ≠ k' → JsMap.get k' (JsMap.set k v m) = JsMap.get k' m.
Proof.
  intros Hne. induction m as [|[k'' v''] m IH]; simpl.
  - by rewrite bool_decide_eq_false_2.
  - destruct (bool_decide (k'' = k)) eqn:Hk; simpl.
    + apply bool_decide_eq_true_1 in Hk as ->.
      by rewrite !bool_decide_eq_false_2.
    + by rewrite IH.
Qed.

Lemma get_delete_eq k m : JsMap.get k (JsMap.delete k m) = None.
Proof.
  induction m as [|[k' v'] m IH]; simpl; [done|].
  destruct (bool_decide (k' = k)) eqn:Hk; simpl; [done|]. by rewrite Hk.
Qed.

Lemma get_delete_ne k k' m :
  k ≠ k' → JsMap.get k' (JsMap.delete k m) = JsMap.get k' m.
Proof.
  intros Hne. induction m as [|[k'' v''] m IH]; simpl; [done|].
  destruct (bool_decide (k'' = k)) eqn:Hk; simpl.
  - apply bool_decide_eq_true_1 in Hk as ->.
    by rewrite bool_decide_eq_false_2.
  - by rewrite IH.
Qed.
End Facts.
End JsMapFacts.

(** ** The parser an analyzer holds *)

Section ParserFacts.
Variable pack : Package.t.
Variable treeType : option TreeType.
Variable swcParseSync : string → outcome Swc.Program.
Variable babelParseSync : string → outcome (option Babel.File).

Local Abbreviation reachable := (reachable pack treeType swcParseSync babelParseSync).
Local Abbreviation callParse := (callParse swcParseSync babelParseSync).

Lemma parser_matches this : reachable this → parserMatches pack this.
Proof.
  unfold parserMatches.
  induction 1 as [|this _ IH|this _ IH|this relativePath _ IH|this relativePath source _ IH].
  - done.
  - unfold setupParser. destruct (parse this) as [p|] eqn:Hp; simpl; [by rewrite Hp|].
    destruct (Package.useSwcParser pack); simpl; [done|].
    case_bool_decide; simpl; [done|]. by rewrite Hp.
  - unfold imports. by destruct (modules this).
  - unfold removeImports. by destruct (JsMap.get _ _).
  - unfold updateImports. destruct (parseImports _ _ _ _ _ _ _); [|done].
    by case_bool_decide.
Qed.

(** On such an analyzer the AST [parseImports] walks is the one of the
    selected backend. *)
Lemma callParse_selected this source ast :
  parserMatches pack this →
  callParse this source = Return (Some ast) →
  ofSelectedBackend pack ast.
Proof.
  unfold parserMatches, callParse.
  destruct (parse this) as [[|]|]; [| |done].
  - intros Hsel. destruct (swcParseSync source); by intros ?; simplify_eq.
  - intros [Hsel _]. destruct (babelParseSync source) as [[f|]|]; by intros ?; simplify_eq.
Qed.
End ParserFacts.

(** * The claims *)

Section Claims.
Variable pack : Package.t.
Variable treeType : option TreeType.
Variable swcParseSync : string → outcome Swc.Program.
Variable babelParseSync : string → outcome (option Babel.File).
Variable extname : string → string.
Variable readFileSync : string → string.

Local Abbreviation callParse := (callParse swcParseSync babelParseSync).
Local Abbreviation parseImports := (parseImports pack treeType swcParseSync babelParseSync).
Local Abbreviation updateImports := (updateImports pack treeType swcParseSync babelParseSync).
Local Abbreviation applyPatch :=
  (applyPatch pack treeType swcParseSync babelParseSync extname readFileSync).
Local Abbreviation build :=
  (build pack treeType swcParseSync babelParseSync extname readFileSync).
Local Abbreviation reachable := (reachable pack treeType swcParseSync babelParseSync).
Local Abbreviation visit := (visit pack treeType).

(** In a build, a [create] (or [change]) of a tracked file is an
    [updateImports] of its content, followed by the rest of the patch when
    it returns. *)
Lemma applyPatch_create this relativePath patch :
  matchesExtension pack extname relativePath = true →
  applyPatch this ((create, relativePath) :: patch) =
  match updateImports this relativePath (readFileSync relativePath) with
  | (Return _, this') => applyPatch this' patch
  | (Throw err, this') => (Throw err, this')
  end.
Proof. intros Hext. simpl. by rewrite Hext. Qed.

(** C2: when the parse function throws an error named [SyntaxError],
    [parseImports] returns the empty sequence, [updateImports] returns
    normally and a build goes on with the rest of its patch; when it throws
    any other error, that very error is thrown by [parseImports] and by
    [updateImports] (which leaves the analyzer as it was) and ends the
    build. *)
Theorem parseImports_parse_failure this relativePath source err :
  callParse this source = Throw err →
  if bool_decide (Err.name err = "SyntaxError")
  then parseImports this relativePath source = Return [] ∧
       fst (updateImports this relativePath source) = Return () ∧
       ∀ patch,
         matchesExtension pack extname relativePath = true →
         readFileSync relativePath = source →
         applyPatch this ((create, relativePath) :: patch) =
         applyPatch (snd (updateImports this relativePath source)) patch
  else parseImports this relativePath source = Throw err ∧
       updateImports this relativePath source = (Throw err, this) ∧
       ∀ patch,
         matchesExtension pack extname relativePath = true →
         readFileSync relativePath = source →
         applyPatch this ((create, relativePath) :: patch) = (Throw err, this).
Proof.
  intros Hparse.
  assert (parseImports this relativePath source =
          if bool_decide (Err.name err = "SyntaxError") then Return [] else Throw err)
    as Hpi.
  { unfold parseImports. rewrite Hparse.
    repeat case_bool_decide; done. }
  case_bool_decide as Hname.
  - split; [done|].
    assert (fst (updateImports this relativePath source) = Return ()) as Hup.
    { unfold updateImports. rewrite Hpi. by case_bool_decide. }
    split; [done|]. intros patch Hext <-.
    rewrite applyPatch_create by done.
    destruct (updateImports _ _ _) as [[[]|e] this']; simpl in *; by simplify_eq.
  - split; [done|].
    assert (updateImports this relativePath source = (Throw err, this)) as Hup.
    { unfold updateImports. by rewrite Hpi. }
    split; [done|]. intros patch Hext <-.
    by rewrite applyPatch_create, Hup.
Qed.

(** C3: [updateImports] compares the new sequence with the one stored for
    the path. When they are equal the analyzer is left as it was, store and
    memoized aggregate included; when they differ, or nothing is stored for
    the path yet, the entry becomes the new sequence and the aggregate is
    set to [null]. *)
Theorem updateImports_upsert this relativePath source newImports :
  parseImports this relativePath source = Return newImports →
  let this' := snd (updateImports this relativePath source) in
  fst (updateImports this relativePath source) = Return () ∧
  JsMap.get relativePath (paths this') = Some newImports ∧
  match JsMap.get relativePath (paths this) with
  | Some stored =>
      if bool_decide (stored = newImports)
      then this' = this
      else this' = mkAnalyzer None (JsMap.set relativePath newImports (paths this))
                              (parse this)
  | None =>
      this' = mkAnalyzer None (JsMap.set relativePath newImports (paths this))
                         (parse this)
  end.
Proof.
  intros Hpi. cbv zeta. unfold updateImports. rewrite Hpi.
  destruct (JsMap.get relativePath (paths this)) as [stored|] eqn:Hget.
  - case_bool_decide as Hne; simpl.
    + rewrite JsMapFacts.get_set_eq.
      rewrite bool_decide_eq_false_2; [done|]. by intros ->.
    + rewrite bool_decide_eq_true_2; [by rewrite Hget|congruence].
  - rewrite bool_decide_eq_true_2 by done. simpl.
    by rewrite JsMapFacts.get_set_eq.
Qed.

(** C4: [removeImports] of a path present in the store deletes the entry
    and nothing else; it sets the aggregate to [null] when the entry held
    one or more records and leaves the cached aggregate as it was when the
    entry held none. *)
Theorem removeImports_evict this relativePath stored :
  JsMap.get relativePath (paths this) = Some stored →
  let this' := removeImports this relativePath in
  JsMap.get relativePath (paths this') = None ∧
  (∀ other, relativePath ≠ other →
            JsMap.get other (paths this') = JsMap.get other (paths this)) ∧
  modules this' = (if bool_decide (0 < length stored) then None else modules this) ∧
  parse this' = parse this.
Proof.
  intros Hget. cbv zeta. unfold removeImports. rewrite Hget. simpl.
  split; [apply JsMapFacts.get_delete_eq|].
  split; [|done]. intros other Hne. by apply JsMapFacts.get_delete_ne.
Qed.

(** C8, as the code has it: the aggregate is set to [null] exactly when
    [updateImports] stores an entry (nothing was stored for the path, or
    what was stored differs from the new sequence, be either of them empty
    or not) and when [removeImports] deletes an entry that holds one or
    more records; [removeImports] of an entry that holds none, an
    [updateImports] that finds the stored sequence unchanged, and a
    [removeImports] of an unknown path leave the cached aggregate as it
    was. *)
Theorem aggregate_invalidation this relativePath source newImports :
  parseImports this relativePath source = Return newImports →
  modules (snd (updateImports this relativePath source)) =
    (if bool_decide (JsMap.get relativePath (paths this) = Some newImports)
     then modules this else None) ∧
  modules (removeImports this relativePath) =
    match JsMap.get relativePath (paths this) with
    | Some (_ :: _) => None
    | Some [] | None => modules this
    end.
Proof.
  intros Hpi. split.
  - unfold updateImports. rewrite Hpi.
    case_bool_decide as Hne; simpl.
    + by rewrite bool_decide_eq_false_2.
    + by rewrite bool_decide_eq_true_2.
  - unfold removeImports.
    by destruct (JsMap.get relativePath (paths this)) as [[|m stored]|].
Qed.

(** C10: on an analyzer of a package that selects the Babel backend with a
    major version other than 7, [setupParser] throws an error whose message
    names the version and the package, installs no parse function, and the
    build ends with that error. *)
Theorem setupParser_unsupported_babel this :
  reachable this →
  Package.useSwcParser pack = false →
  Package.babelMajorVersion pack ≠ 7%Z →
  let err :=
    Err.Error ("don't know how to setup a parser for Babel version "
               +:+ pretty (Package.babelMajorVersion pack)
               +:+ " (used by " +:+ Package.name pack +:+ ")") in
  setupParser pack this = (Throw err, this) ∧
  parse this = None ∧
  ∀ patch, build this patch = (Throw err, this).
Proof.
  intros Hreach Hbabel Hversion err.
  assert (parse this = None) as Hparse.
  { apply parser_matches in Hreach. unfold parserMatches in Hreach.
    destruct (parse this) as [[|]|]; [congruence|by destruct Hreach|done]. }
  assert (setupParser pack this = (Throw err, this)) as Hsetup.
  { unfold setupParser. rewrite Hparse, Hbabel.
    by rewrite bool_decide_eq_false_2. }
  split; [done|]. split; [done|].
  intros patch. unfold build. by rewrite Hsetup.
Qed.

Lemma importCallArguments_keyword_call n args :
  importCallArguments (SwcNode n) = Some args →
  isImportKeywordCall (SwcNode n) = true.
Proof.
  simpl. unfold Swc.importCallArguments.
  destruct (Swc.importCallOf n); [|done].
  intros _. by apply bool_decide_eq_true_2.
Qed.

(** C5: on a call the extractor treats as an import, the first argument
    decides the record. A string literal gives a Literal Import whose
    specifier is its value; a template literal without interpolation gives a
    Literal Import whose specifier is its only segment; a template literal
    with interpolations gives a Template Import with the segments in order
    and, for each interpolated expression, its name when it is a bare
    identifier and nothing otherwise. *)
Theorem call_argument_forms relativePath n argument rest :
  importCallArguments n = Some (argument :: rest) →
  wellFormedArgument argument →
  let b := mkBase relativePath pack (isImportKeywordCall n) treeType in
  match argumentForm argument with
  | StringForm value =>
      visit relativePath n [] = Return [Literal (mkLiteral b value)]
  | TemplateForm segments [] =>
      ∃ s, segments = [s] ∧
           visit relativePath n [] = Return [Literal (mkLiteral b s)]
  | TemplateForm segments (hint :: hints) =>
      visit relativePath n [] =
      Return [Template (mkTemplate b segments (hint :: hints))]
  | OtherForm => visit relativePath n [] = Throw usageError
  end.
Proof.
  intros Hargs Hwf. cbv zeta. destruct n as [n|n].
  - apply importCallArguments_babel in Hargs as ([|a args] & Hargs & ?); simplify_eq/=.
    destruct (babel_enter_import_call pack treeType relativePath _ _ Hargs)
      as (callee & -> & ->).
    destruct a as [| | |quasis es| | | |]; try done.
    simpl in *.
    destruct es as [|e es]; destruct quasis as [|q [|q' qs]]; simplify_eq/=; eauto.
  - pose proof (importCallArguments_keyword_call _ _ Hargs) as ->.
    apply importCallArguments_swc in Hargs as ([|a args] & Hargs & ?); simplify_eq/=.
    rewrite (swc_enter_import_call pack treeType relativePath _ _ Hargs).
    unfold Swc.visitCallExpression. rewrite swc_importCallOf_import.
    destruct a as [| |quasis es| | | | |]; try done.
    simpl in *.
    destruct es as [|e es]; destruct quasis as [|q [|q' qs]]; simplify_eq/=; eauto.
Qed.

Lemma parseImports_wrong_backend this relativePath source ast :
  callParse this source = Return (Some ast) →
  ¬ ofSelectedBackend pack ast →
  parseImports this relativePath source = Throw wrongAst.
Proof.
  intros Hparse Hsel. unfold parseImports. rewrite Hparse.
  destruct ast; simpl in *; by destruct (Package.useSwcParser pack).
Qed.

Lemma updateImports_throw this relativePath source err :
  parseImports this relativePath source = Throw err →
  updateImports this relativePath source = (Throw err, this).
Proof. intros Hpi. unfold updateImports. by rewrite Hpi. Qed.

(** C6, as the code has it: when a call the selected backend's visitor
    treats as an import has a first argument that is neither a string
    literal nor a template literal (and no such call lacks its argument),
    [parseImports] throws an [Error] with the message "import() is only
    allowed to contain string literals or template string literals";
    [updateImports] throws it too and leaves the analyzer, the entry of the
    path included, as it was, and the build ends with that error. *)
Theorem unsupported_argument_fails this relativePath source ast n argument rest :
  reachable this →
  callParse this source = Return (Some ast) →
  Forall (λ m, importCallArguments m ≠ Some []) (visitedNodes ast) →
  n ∈ visitedNodes ast →
  importCallArguments n = Some (argument :: rest) →
  supportedArgument argument = false →
  let err :=
    Err.Error
      "import() is only allowed to contain string literals or template string literals" in
  parseImports this relativePath source = Throw err ∧
  updateImports this relativePath source = (Throw err, this) ∧
  ∀ patch,
    matchesExtension pack extname relativePath = true →
    readFileSync relativePath = source →
    applyPatch this ((create, relativePath) :: patch) = (Throw err, this).
Proof.
  intros Hreach Hparse Hargs Hin Hn Hsup err.
  assert (parseImports this relativePath source = Throw err) as Hpi.
  { rewrite (parseImports_collect _ _ _ _ _ _ _ ast Hparse)
      by eauto using callParse_selected, parser_matches.
    apply (collect_throws _ _ (visit relativePath n)).
    - apply Forall_map. eapply Forall_impl; [exact Hargs|].
      intros m Hm e He. by apply (visit_throws pack treeType relativePath m).
    - by apply list_elem_of_fmap_2.
    - by apply (visit_unsupported _ _ _ _ argument rest). }
  split; [done|]. split; [by apply updateImports_throw|].
  intros patch Hext <-.
  by rewrite applyPatch_create, (updateImports_throw _ _ _ _ Hpi).
Qed.

(** C9: every record [parseImports] returns is of exactly one variant, and
    a Template Import has one more cooked quasi than it has name hints,
    the template literals of the parsed file being well formed. *)
Theorem import_record_invariant this relativePath source ast imports :
  callParse this source = Return (Some ast) →
  Forall wellFormedImportCall (visitedNodes ast) →
  parseImports this relativePath source = Return imports →
  Forall (λ m, quasisMatchHints m ∧
               has_specifier m = negb (has_cookedQuasis m) ∧
               has_cookedQuasis m = has_expressionNameHints m) imports.
Proof.
  intros Hparse Hwf Hpi.
  assert (ofSelectedBackend pack ast) as Hsel.
  { destruct ast; simpl;
      destruct (Package.useSwcParser pack) eqn:Hswc; try done;
      rewrite (parseImports_wrong_backend _ _ _ _ Hparse) in Hpi;
      simpl; by rewrite ?Hswc. }
  rewrite (parseImports_collect _ _ _ _ _ _ _ ast Hparse Hsel) in Hpi.
  eapply collect_Forall; [|exact Hpi].
  apply Forall_map. eapply Forall_impl; [exact Hwf|].
  intros m Hm l. by apply visit_invariant.
Qed.

End Claims.

(** * The claims on the sample files *)

(** C1: for [importSync('foo')], the macro imported from
    [@embroider/macros], the Babel visitor pushes a non-dynamic Literal
    Import, the swc visitor pushes nothing; and for an [import('bar')] that
    is an argument of another call, the Babel visitor pushes a dynamic
    Literal Import, the swc visitor pushes nothing. *)
Theorem call_forms_on_samples :
  parseImports babelPackage None sampleSwcParseSync sampleBabelParseSync
    babelAnalyzer "a.js" macroSource =
  Return [literal babelPackage "a.js" false "@embroider/macros";
          literal babelPackage "a.js" false "foo"] ∧
  parseImports swcPackage None sampleSwcParseSync sampleBabelParseSync
    swcAnalyzer "a.js" macroSource =
  Return [literal swcPackage "a.js" false "@embroider/macros"] ∧
  parseImports babelPackage None sampleSwcParseSync sampleBabelParseSync
    babelAnalyzer "a.js" nestedSource =
  Return [literal babelPackage "a.js" true "bar"] ∧
  parseImports swcPackage None sampleSwcParseSync sampleBabelParseSync
    swcAnalyzer "a.js" nestedSource =
  Return [].
Proof. repeat split; vm_compute; reflexivity. Qed.

Lemma reachable_babelAnalyzer :
  reachable babelPackage None sampleSwcParseSync sampleBabelParseSync babelAnalyzer.
Proof. apply reachable_setupParser, reachable_new. Defined.

Lemma reachable_swcAnalyzer :
  reachable swcPackage None sampleSwcParseSync sampleBabelParseSync swcAnalyzer.
Proof. apply reachable_setupParser, reachable_new. Defined.

(** C2 on a file that does not parse, under Babel, whose error is a
    [SyntaxError], and under swc, whose error is not. *)
Lemma parseImports_parse_failure_witness :
  (callParse sampleSwcParseSync sampleBabelParseSync babelAnalyzer brokenSource =
   Throw (Err.make "SyntaxError" "Unexpected token") ∧
   parseImports babelPackage None sampleSwcParseSync sampleBabelParseSync
     babelAnalyzer "a.js" brokenSource = Return []) ∧
  (callParse sampleSwcParseSync sampleBabelParseSync swcAnalyzer brokenSource =
   Throw (Err.Error "failed to parse module") ∧
   updateImports swcPackage None sampleSwcParseSync sampleBabelParseSync
     swcAnalyzer "a.js" brokenSource =
   (Throw (Err.Error "failed to parse module"), swcAnalyzer)).
Proof.
  split; (split; [reflexivity|]).
  - exact (proj1 (parseImports_parse_failure babelPackage None sampleSwcParseSync
                    sampleBabelParseSync sampleExtname (λ _, brokenSource)
                    babelAnalyzer "a.js" brokenSource _ eq_refl)).
  - exact (proj1 (proj2 (parseImports_parse_failure swcPackage None sampleSwcParseSync
                           sampleBabelParseSync sampleExtname (λ _, brokenSource)
                           swcAnalyzer "a.js" brokenSource _ eq_refl))).
Defined.

(** C3 on a first and on a repeated submission of the same file. *)
Lemma updateImports_upsert_witness :
  parseImports babelPackage None sampleSwcParseSync sampleBabelParseSync
    babelAnalyzer "a.js" declarationsSource = Return declarationsFound ∧
  snd (updateImports babelPackage None sampleSwcParseSync sampleBabelParseSync
         babelAnalyzer "a.js" declarationsSource) =
  mkAnalyzer None [("a.js", declarationsFound)] (Some babel7Parser) ∧
  snd (updateImports babelPackage None sampleSwcParseSync sampleBabelParseSync
         storedAnalyzer "a.js" declarationsSource) = storedAnalyzer.
Proof.
  split; [reflexivity|]. split.
  - exact (proj2 (proj2 (updateImports_upsert babelPackage None sampleSwcParseSync
                           sampleBabelParseSync babelAnalyzer "a.js" declarationsSource
                           declarationsFound eq_refl))).
  - exact (proj2 (proj2 (updateImports_upsert babelPackage None sampleSwcParseSync
                           sampleBabelParseSync storedAnalyzer "a.js" declarationsSource
                           declarationsFound eq_refl))).
Defined.

(** C4 on an entry with two records and on an entry with none. *)
Lemma removeImports_evict_witness :
  (JsMap.get "a.js" (paths storedAnalyzer) = Some declarationsFound ∧
   JsMap.get "a.js" (paths (removeImports storedAnalyzer "a.js")) = None ∧
   modules (removeImports storedAnalyzer "a.js") = None) ∧
  (JsMap.get "b.js" (paths storedAnalyzer) = Some [] ∧
   JsMap.get "b.js" (paths (removeImports storedAnalyzer "b.js")) = None ∧
   modules (removeImports storedAnalyzer "b.js") = Some declarationsFound).
Proof.
  split; (split; [reflexivity|]).
  - pose proof (removeImports_evict storedAnalyzer "a.js" declarationsFound eq_refl)
      as (Hgone & _ & Hmodules & _).
    exact (conj Hgone Hmodules).
  - pose proof (removeImports_evict storedAnalyzer "b.js" [] eq_refl)
      as (Hgone & _ & Hmodules & _).
    exact (conj Hgone Hmodules).
Defined.

(** C5 on [import(`bar-${x}`)], under either backend. *)
Lemma call_argument_forms_witness :
  visit babelPackage None "a.js"
    (BabelNode (Babel.CallExpression Babel.Import_
                  [Babel.TemplateLiteral [Babel.mkElement "bar-"; Babel.mkElement ""]
                                         [Babel.Identifier "x" None]])) [] =
  Return [Template (mkTemplate (mkBase "a.js" babelPackage true None)
                               ["bar-"; ""] [Some "x"])] ∧
  visit swcPackage None "a.js"
    (SwcNode (Swc.CallExpression (Swc.Identifier "import")
                [Swc.TemplateLiteral [Swc.mkElement "bar-"; Swc.mkElement ""]
                                     [Swc.Identifier "x"]])) [] =
  Return [Template (mkTemplate (mkBase "a.js" swcPackage true None)
                               ["bar-"; ""] [Some "x"])].
Proof.
  split.
  - exact (call_argument_forms babelPackage None "a.js"
             (BabelNode (Babel.CallExpression Babel.Import_
                           [Babel.TemplateLiteral
                              [Babel.mkElement "bar-"; Babel.mkElement ""]
                              [Babel.Identifier "x" None]]))
             (BabelNode (Babel.TemplateLiteral [Babel.mkElement "bar-"; Babel.mkElement ""]
                                               [Babel.Identifier "x" None]))
             [] eq_refl eq_refl).
  - exact (call_argument_forms swcPackage None "a.js"
             (SwcNode (Swc.CallExpression (Swc.Identifier "import")
                         [Swc.TemplateLiteral [Swc.mkElement "bar-"; Swc.mkElement ""]
                                              [Swc.Identifier "x"]]))
             (SwcNode (Swc.TemplateLiteral [Swc.mkElement "bar-"; Swc.mkElement ""]
                                           [Swc.Identifier "x"]))
             [] eq_refl eq_refl).
Defined.

(** C6: the message of the error is not the one the specification quotes; under
    swc a macro call with an unsupported argument is no error at all; and
    a macro call without argument, earlier in the file, ends the walk with
    another error. *)
Lemma unsupported_argument_counterexample :
  parseImports babelPackage None sampleSwcParseSync sampleBabelParseSync
    babelAnalyzer "a.js" unsupportedSource =
  Throw (Err.Error
           "import() is only allowed to contain string literals or template string literals") ∧
  parseImports babelPackage None sampleSwcParseSync sampleBabelParseSync
    babelAnalyzer "a.js" unsupportedSource ≠
  Throw (Err.Error "import() only accepts string or template-string literals") ∧
  parseImports swcPackage None sampleSwcParseSync sampleBabelParseSync
    swcAnalyzer "a.js" unsupportedMacroSource =
  Return [literal swcPackage "a.js" false "@embroider/macros"] ∧
  parseImports babelPackage None sampleSwcParseSync sampleBabelParseSync
    babelAnalyzer "a.js" missingArgumentSource =
  Throw (Err.TypeError "Cannot read properties of undefined (reading 'type')").
Proof. split; [reflexivity|]. split; [discriminate|]. split; reflexivity. Qed.

(** C6, as the code has it, on [import(someFn())]. *)
Lemma unsupported_argument_fails_witness :
  callParse sampleSwcParseSync sampleBabelParseSync babelAnalyzer unsupportedSource =
  Return (Some (File unsupportedFile)) ∧
  BabelNode unsupportedCall ∈ visitedNodes (File unsupportedFile) ∧
  importCallArguments (BabelNode unsupportedCall) = Some [BabelNode someFnCall] ∧
  supportedArgument (BabelNode someFnCall) = false ∧
  updateImports babelPackage None sampleSwcParseSync sampleBabelParseSync
    babelAnalyzer "a.js" unsupportedSource =
  (Throw usageError, babelAnalyzer).
Proof.
  assert (BabelNode unsupportedCall ∈ visitedNodes (File unsupportedFile)) as Hin.
  { simpl. apply list_elem_of_further, list_elem_of_here. }
  assert (Forall (λ m, importCallArguments m ≠ Some [])
                 (visitedNodes (File unsupportedFile))) as Hargs.
  { simpl. repeat (apply Forall_cons_2 || apply Forall_nil_2); discriminate. }
  split; [reflexivity|]. split; [exact Hin|]. split; [reflexivity|].
  split; [reflexivity|].
  exact (proj1 (proj2 (unsupported_argument_fails babelPackage None sampleSwcParseSync
                         sampleBabelParseSync sampleExtname (λ _, unsupportedSource)
                         babelAnalyzer "a.js" unsupportedSource (File unsupportedFile)
                         (BabelNode unsupportedCall) (BabelNode someFnCall) []
                         reachable_babelAnalyzer eq_refl Hargs Hin eq_refl eq_refl))).
Defined.

(** C7: on [import Foo from 'bar'; export { a } from 'pkg'; const b = 1;
    export { b };] the Babel visitors push one non-dynamic Literal Import
    for the import declaration and one for the export with a source, and
    nothing for the export without one. The swc visitor pushes the record
    of the import declaration only: its [visitExportNamedDeclaration],
    which would push the second record, is never called. *)
Theorem declarations_on_samples :
  parseImports babelPackage None sampleSwcParseSync sampleBabelParseSync
    babelAnalyzer "a.js" declarationsSource =
  Return [literal babelPackage "a.js" false "bar";
          literal babelPackage "a.js" false "pkg"] ∧
  Swc.visitExportNamedDeclaration swcPackage None "a.js" (Some "pkg") [] =
  Return [literal swcPackage "a.js" false "pkg"] ∧
  parseImports swcPackage None sampleSwcParseSync sampleBabelParseSync
    swcAnalyzer "a.js" declarationsSource =
  Return [literal swcPackage "a.js" false "bar"].
Proof. repeat split; vm_compute; reflexivity. Qed.

(** C8: on a fresh analyzer, whose aggregate is cached, the first
    [updateImports] of a file without imports creates an empty entry and
    sets the aggregate to [null]. *)
Lemma empty_entry_invalidates :
  modules babelAnalyzer = Some [] ∧
  parseImports babelPackage None sampleSwcParseSync sampleBabelParseSync
    babelAnalyzer "a.js" emptySource = Return [] ∧
  updateImports babelPackage None sampleSwcParseSync sampleBabelParseSync
    babelAnalyzer "a.js" emptySource =
  (Return (), mkAnalyzer None [("a.js", [])] (Some babel7Parser)).
Proof. repeat split; reflexivity. Qed.

(** C8, as the code has it, on that file and on the removal of an entry
    without records. *)
Lemma aggregate_invalidation_witness :
  parseImports babelPackage None sampleSwcParseSync sampleBabelParseSync
    storedAnalyzer "b.js" emptySource = Return [] ∧
  modules (snd (updateImports babelPackage None sampleSwcParseSync sampleBabelParseSync
                  storedAnalyzer "b.js" emptySource)) = Some declarationsFound ∧
  modules (removeImports storedAnalyzer "b.js") = Some declarationsFound.
Proof.
  split; [reflexivity|].
  exact (aggregate_invalidation babelPackage None sampleSwcParseSync sampleBabelParseSync
           storedAnalyzer "b.js" emptySource [] eq_refl).
Defined.

(** C9 on [import(`bar-${x}`)] under swc. *)
Lemma import_record_invariant_witness :
  callParse sampleSwcParseSync sampleBabelParseSync swcAnalyzer templateSource =
  Return (Some (Program templateProgram)) ∧
  Forall wellFormedImportCall (visitedNodes (Program templateProgram)) ∧
  parseImports swcPackage None sampleSwcParseSync sampleBabelParseSync
    swcAnalyzer "a.js" templateSource =
  Return [Template (mkTemplate (mkBase "a.js" swcPackage true None)
                               ["bar-"; ""] [Some "x"])] ∧
  Forall (λ m, quasisMatchHints m ∧
               has_specifier m = negb (has_cookedQuasis m) ∧
               has_cookedQuasis m = has_expressionNameHints m)
         [Template (mkTemplate (mkBase "a.js" swcPackage true None)
                               ["bar-"; ""] [Some "x"])].
Proof.
  assert (Forall wellFormedImportCall (visitedNodes (Program templateProgram))) as Hwf.
  { simpl. repeat (apply Forall_cons_2 || apply Forall_nil_2); vm_compute; done. }
  split; [reflexivity|]. split; [exact Hwf|]. split; [reflexivity|].
  exact (import_record_invariant swcPackage None sampleSwcParseSync sampleBabelParseSync
           swcAnalyzer "a.js" templateSource (Program templateProgram) _
           eq_refl Hwf eq_refl).
Defined.

(** C10 on a package that uses Babel 6. *)
Lemma setupParser_unsupported_babel_witness :
  Package.useSwcParser babel6Package = false ∧
  Package.babelMajorVersion babel6Package ≠ 7%Z ∧
  setupParser babel6Package new =
  (Throw (Err.Error
            "don't know how to setup a parser for Babel version 6 (used by my-addon)"),
   new) ∧
  parse new = None.
Proof.
  assert (Package.babelMajorVersion babel6Package ≠ 7%Z) as Hversion by discriminate.
  split; [reflexivity|]. split; [exact Hversion|].
  pose proof (setupParser_unsupported_babel babel6Package None sampleSwcParseSync
                sampleBabelParseSync sampleExtname (λ _, emptySource) new
                (reachable_new _ _ _ _) eq_refl Hversion) as (Hsetup & Hparse & _).
  exact (conj Hsetup Hparse).
Defined.

(** * Further properties of the analyzer *)

(** ** The store as an ordered map *)

Section JsMapOrder.
Context {V : Type}.
Implicit Types (m before after : JsMap.t V) (k : string) (v : V).

Lemma get_None_keys k m : JsMap.get k m = None ↔ k ∉ map fst m.
Proof.
  induction m as [|[k' v'] m IH]; simpl.
  - split; [intros _; apply not_elem_of_nil|done].
  - rewrite not_elem_of_cons. case_bool_decide as Hk.
    + split; [done|]. intros [Hne _]. by destruct Hne.
    + rewrite IH. split; [by intros ?; split|by intros [_ ?]].
Qed.

Lemma set_absent k v m : JsMap.get k m = None → JsMap.set k v m = m ++ [(k, v)].
Proof.
  induction m as [|[k' v'] m IH]; simpl; [done|].
  case_bool_decide; [done|]. intros Hget. by rewrite IH.
Qed.

Lemma delete_absent k m : JsMap.get k m = None → JsMap.delete k m = m.
Proof.
  induction m as [|[k' v'] m IH]; simpl; [done|].
  case_bool_decide; [done|]. intros Hget. by rewrite IH.
Qed.

Lemma delete_app k m1 m2 :
  JsMap.delete k (m1 ++ m2) = JsMap.delete k m1 ++ JsMap.delete k m2.
Proof.
  induction m1 as [|[k' v'] m1 IH]; simpl; [done|].
  case_bool_decide; [done|]. by rewrite IH.
Qed.

Lemma set_present k v stored before after :
  JsMap.get k before = None →
  JsMap.set k v (before ++ (k, stored) :: after) = before ++ (k, v) :: after.
Proof.
  induction before as [|[k' v'] before IH]; simpl.
  - by rewrite bool_decide_eq_true_2.
  - case_bool_decide; [done|]. intros Hget. by rewrite IH.
Qed.

Lemma delete_present k stored before after :
  JsMap.get k before = None → JsMap.get k after = None →
  JsMap.delete k (before ++ (k, stored) :: after) = before ++ after.
Proof.
  intros Hb Ha. rewrite delete_app. simpl.
  rewrite bool_decide_eq_true_2 by done.
  by rewrite !delete_absent.
Qed.

Lemma get_present k stored before after :
  JsMap.get k before = None →
  JsMap.get k (before ++ (k, stored) :: after) = Some stored.
Proof.
  induction before as [|[k' v'] before IH]; simpl.
  - by rewrite bool_decide_eq_true_2.
  - case_bool_decide; [done|]. apply IH.
Qed.

Lemma keys_set k v m : NoDup (map fst m) → NoDup (map fst (JsMap.set k v m)).
Proof.
  induction m as [|[k' v'] m IH]; simpl.
  - intros _. apply NoDup_singleton.
  - rewrite !NoDup_cons. intros [Hk' Hm].
    case_bool_decide as Hk; simpl.
    + subst k'. apply NoDup_cons. by split.
    + apply NoDup_cons. split; [|by apply IH].
      intros Hin. apply Hk'.
      clear -Hin Hk. induction m as [|[k'' v''] m IH]; simpl in *.
      * apply list_elem_of_singleton in Hin. by subst.
      * case_bool_decide as Hk''; simpl in *.
        { apply elem_of_cons in Hin as [->|Hin]; [by destruct Hk|].
          by apply list_elem_of_further. }
        { apply elem_of_cons in Hin as [->|Hin]; [apply list_elem_of_here|].
          by apply list_elem_of_further, IH. }
Qed.

Lemma keys_delete_subset k k' m : k' ∈ map fst (JsMap.delete k m) → k' ∈ map fst m.
Proof.
  induction m as [|[k'' v''] m IH]; simpl; [done|].
  case_bool_decide; simpl.
  - intros Hin. by apply list_elem_of_further, IH.
  - intros [->|Hin]%elem_of_cons; [apply list_elem_of_here|].
    by apply list_elem_of_further, IH.
Qed.

Lemma keys_delete k m : NoDup (map fst m) → NoDup (map fst (JsMap.delete k m)).
Proof.
  induction m as [|[k' v'] m IH]; simpl; [done|].
  rewrite NoDup_cons. intros [Hk' Hm].
  case_bool_decide; simpl; [by apply IH|].
  apply NoDup_cons. split; [|by apply IH].
  intros Hin. by apply Hk', (keys_delete_subset k).
Qed.

(** A key that is present splits the map around its only entry. *)
Lemma get_Some_split k v m :
  NoDup (map fst m) → JsMap.get k m = Some v →
  ∃ before after,
    m = before ++ (k, v) :: after ∧
    JsMap.get k before = None ∧ JsMap.get k after = None.
Proof.
  induction m as [|[k' v'] m IH]; simpl; [done|].
  rewrite NoDup_cons. intros [Hk' Hm].
  case_bool_decide as Hk.
  - intros [= ->]. subst k'. exists [], m. split; [done|]. split; [done|].
    by apply get_None_keys.
  - intros Hget. destruct (IH Hm Hget) as (before & after & -> & Hb & Ha).
    exists ((k', v') :: before), after. split; [done|]. split; [|done].
    simpl. by rewrite bool_decide_eq_false_2.
Qed.

Lemma split_unique k v before after :
  NoDup (map fst (before ++ (k, v) :: after)) →
  JsMap.get k before = None ∧ JsMap.get k after = None.
Proof.
  rewrite map_app. simpl. intros Hnd.
  apply NoDup_app in Hnd as (_ & Hdisj & Hafter).
  apply NoDup_cons in Hafter as [Hk _].
  rewrite !get_None_keys. split; [|done].
  intros Hin. apply (Hdisj k Hin), list_elem_of_here.
Qed.
End JsMapOrder.

(** ** The memoized aggregate *)

Section Aggregate.
Variable pack : Package.t.
Variable treeType : option TreeType.
Variable swcParseSync : string → outcome Swc.Program.
Variable babelParseSync : string → outcome (option Babel.File).
Variable extname : string → string.
Variable readFileSync : string → string.

Local Abbreviation callParse := (callParse swcParseSync babelParseSync).
Local Abbreviation parseImports := (parseImports pack treeType swcParseSync babelParseSync).
Local Abbreviation updateImports := (updateImports pack treeType swcParseSync babelParseSync).
Local Abbreviation applyOperation :=
  (applyOperation pack treeType swcParseSync babelParseSync extname readFileSync).
Local Abbreviation applyPatch :=
  (applyPatch pack treeType swcParseSync babelParseSync extname readFileSync).
Local Abbreviation build :=
  (build pack treeType swcParseSync babelParseSync extname readFileSync).
Local Abbreviation reachable := (reachable pack treeType swcParseSync babelParseSync).

Lemma concat_values_app (m1 m2 : JsMap.t (list Import)) :
  concat (JsMap.values (m1 ++ m2)) =
  concat (JsMap.values m1) ++ concat (JsMap.values m2).
Proof. unfold JsMap.values. by rewrite map_app, concat_app. Qed.

Lemma store_invariants this : reachable this → keysUnique this ∧ cacheCoherent this.
Proof.
  unfold keysUnique, cacheCoherent.
  induction 1 as [|this _ [Hk Hc]|this _ [Hk Hc]|this relativePath _ [Hk Hc]
                 |this relativePath source _ [Hk Hc]].
  - split; [apply NoDup_nil_2|done].
  - unfold setupParser. destruct (parse this); [done|].
    destruct (Package.useSwcParser pack); [done|]. by case_bool_decide.
  - unfold imports. destruct (modules this) eqn:Hm; simpl; [by rewrite Hm|done].
  - unfold removeImports.
    destruct (JsMap.get relativePath (paths this)) as [stored|] eqn:Hget; [|done].
    simpl. split; [by apply keys_delete|].
    case_bool_decide as Hlen; [done|].
    destruct stored; [|simpl in Hlen; lia].
    destruct (modules this) as [cached|]; [|done].
    destruct (get_Some_split _ _ _ Hk Hget) as (before & after & Hp & Hb & Ha).
    rewrite Hc, Hp, delete_present by done.
    by rewrite !concat_values_app.
  - unfold updateImports. destruct (parseImports _ _ _) as [newImports|]; [|done].
    case_bool_decide; [|done]. simpl. split; [by apply keys_set|done].
Qed.

Lemma imports_reachable this :
  reachable this →
  imports this =
  (concat (JsMap.values (paths this)),
   mkAnalyzer (Some (concat (JsMap.values (paths this)))) (paths this) (parse this)).
Proof.
  intros [_ Hc]%store_invariants. unfold cacheCoherent in Hc. unfold imports.
  destruct this as [[cached|] store parser]; simpl in *; by subst.
Qed.

(** X1: on every state the analyzer goes through, reading [imports]
    returns the flattening of the store, in the order of the store, and
    leaves that list cached. *)
Theorem imports_is_flattened_store this :
  reachable this →
  imports this =
  (concat (JsMap.values (paths this)),
   mkAnalyzer (Some (concat (JsMap.values (paths this)))) (paths this) (parse this)).
Proof.
  intros [_ Hc]%store_invariants. unfold cacheCoherent in Hc. unfold imports.
  destruct this as [[cached|] store parser]; simpl in *; by subst.
Qed.

(** X2: removing a file takes exactly its records out of the aggregate:
    with the entry of the path between the entries [before] and [after],
    the next read of [imports] gives the records of [before] followed by
    those of [after]. *)
Theorem removeImports_takes_records_out this relativePath stored before after :
  reachable this →
  paths this = before ++ (relativePath, stored) :: after →
  fst (imports this) =
    concat (JsMap.values before) ++ stored ++ concat (JsMap.values after) ∧
  fst (imports (removeImports this relativePath)) =
    concat (JsMap.values before) ++ concat (JsMap.values after).
Proof.
  intros Hreach Hp.
  rewrite !imports_reachable by eauto using reachable_removeImports.
  simpl. split.
  - by rewrite Hp, concat_values_app.
  - destruct (store_invariants _ Hreach) as [Hk _]. unfold keysUnique in Hk.
    rewrite Hp in Hk. apply split_unique in Hk as [Hb Ha].
    unfold removeImports. rewrite Hp, get_present by done. simpl.
    by rewrite delete_present, concat_values_app.
Qed.

(** X3: the records of a file seen for the first time are appended to the
    aggregate. *)
Theorem updateImports_appends_new_file this relativePath source newImports :
  reachable this →
  JsMap.get relativePath (paths this) = None →
  parseImports this relativePath source = Return newImports →
  fst (imports (snd (updateImports this relativePath source))) =
  fst (imports this) ++ newImports.
Proof.
  intros Hreach Hget Hpi.
  rewrite !imports_reachable by eauto using reachable_updateImports.
  simpl. unfold updateImports. rewrite Hpi, Hget.
  rewrite bool_decide_eq_true_2 by done. simpl.
  rewrite set_absent, concat_values_app by done. simpl.
  by rewrite app_nil_r.
Qed.

(** X4: the records of a file that changed take the place of its former
    records in the aggregate; the records of the other files keep their
    places. *)
Theorem updateImports_replaces_in_place
    this relativePath source stored newImports before after :
  reachable this →
  paths this = before ++ (relativePath, stored) :: after →
  parseImports this relativePath source = Return newImports →
  fst (imports (snd (updateImports this relativePath source))) =
  concat (JsMap.values before) ++ newImports ++ concat (JsMap.values after).
Proof.
  intros Hreach Hp Hpi.
  rewrite imports_reachable by eauto using reachable_updateImports.
  simpl.
  destruct (store_invariants _ Hreach) as [Hk _]. unfold keysUnique in Hk.
  rewrite Hp in Hk. apply split_unique in Hk as [Hb Ha].
  unfold updateImports. rewrite Hpi, Hp, get_present by done.
  case_bool_decide as Hne; simpl.
  - by rewrite set_present, concat_values_app.
  - assert (stored = newImports) as -> by congruence.
    by rewrite Hp, concat_values_app.
Qed.

Lemma parseImports_parse_only this this' relativePath source :
  parse this' = parse this →
  parseImports this' relativePath source = parseImports this relativePath source.
Proof.
  intros Hparse. unfold parseImports, callParse. by rewrite Hparse.
Qed.

Lemma updateImports_parse this relativePath source :
  parse (snd (updateImports this relativePath source)) = parse this.
Proof.
  unfold updateImports. destruct (parseImports _ _ _); [|done]. by case_bool_decide.
Qed.

(** X5: submitting the same source for the same path again is free: the
    second [updateImports] returns the analyzer as the first one left it,
    also when the aggregate was read, and so cached, in between. *)
Theorem updateImports_resubmission this this' relativePath source :
  updateImports this relativePath source = (Return (), this') →
  updateImports this' relativePath source = (Return (), this') ∧
  updateImports (snd (imports this')) relativePath source =
  (Return (), snd (imports this')).
Proof.
  intros Hup.
  assert (parse this' = parse this) as Hparse.
  { by rewrite <- (updateImports_parse this relativePath source), Hup. }
  assert (∃ newImports,
            parseImports this relativePath source = Return newImports ∧
            JsMap.get relativePath (paths this') = Some newImports)
    as (newImports & Hpi & Hget).
  { unfold updateImports in Hup.
    destruct (parseImports this relativePath source) as [newImports|]; [|done].
    exists newImports. split; [done|].
    case_bool_decide as Hne; simplify_eq/=; [apply JsMapFacts.get_set_eq|done]. }
  split.
  - unfold updateImports. rewrite (parseImports_parse_only this) by done.
    rewrite Hpi, Hget. by rewrite bool_decide_eq_false_2 by (by intros []).
  - unfold updateImports.
    rewrite (parseImports_parse_only this)
      by (unfold imports; by destruct (modules this')).
    rewrite Hpi.
    assert (paths (snd (imports this')) = paths this') as ->
      by (unfold imports; by destruct (modules this')).
    rewrite Hget. by rewrite bool_decide_eq_false_2 by (by intros []).
Qed.

(** X6: creating a file and then removing it gives back the store as it
    was before, entry for entry; the aggregate is left to be recomputed. *)
Theorem updateImports_then_removeImports this relativePath source newImports :
  JsMap.get relativePath (paths this) = None →
  parseImports this relativePath source = Return newImports →
  paths (removeImports (snd (updateImports this relativePath source)) relativePath) =
    paths this ∧
  modules (snd (updateImports this relativePath source)) = None.
Proof.
  intros Hget Hpi. unfold updateImports. rewrite Hpi, Hget.
  rewrite bool_decide_eq_true_2 by done. simpl. split; [|done].
  unfold removeImports. simpl. rewrite JsMapFacts.get_set_eq. simpl.
  rewrite set_absent, delete_app, delete_absent by done. simpl.
  rewrite bool_decide_eq_true_2 by done. by rewrite app_nil_r.
Qed.

(** X8: a patch that touches no file with a tracked extension leaves the
    analyzer as it is, whatever its operations. *)
Theorem applyPatch_untracked this patch :
  Forall (λ op, matchesExtension pack extname (snd op) = false) patch →
  applyPatch this patch = (Return (), this).
Proof.
  induction 1 as [|[operation relativePath] patch Hop _ IH]; simpl; [done|].
  simpl in Hop. destruct operation; simpl; rewrite ?Hop; exact IH.
Qed.

(** X10: [build] keeps the analyzer among the states reached by
    [setupParser], [updateImports] and [removeImports], so what holds of
    those states holds after every build, failed or not. *)
Theorem build_reachable this patch :
  reachable this → reachable (snd (build this patch)).
Proof.
  assert (∀ patch this, reachable this → reachable (snd (applyPatch this patch)))
    as Hpatch.
  { clear. induction patch as [|[operation relativePath] patch IH];
      intros this Hreach; simpl; [done|].
    assert (reachable (snd (applyOperation this operation relativePath))) as Hop.
    { unfold applyOperation.
      destruct operation; try destruct (matchesExtension pack extname relativePath);
        simpl; auto using reachable_removeImports, reachable_updateImports. }
    destruct (applyOperation this operation relativePath) as [[[]|err] this'];
      simpl in *; auto. }
  intros Hreach. unfold build.
  pose proof (reachable_setupParser _ _ _ _ _ Hreach) as Hsetup.
  destruct (setupParser pack this) as [[[]|err] this']; simpl in *; auto.
Qed.

End Aggregate.

(** ** What the walk returns and throws *)

Lemma collect_Throw_elem vs e :
  collect vs = Throw e → ∃ v, v ∈ vs ∧ v [] = Throw e.
Proof.
  induction vs as [|v vs IH]; simpl; [done|].
  destruct (v []) as [l|e'] eqn:Hv.
  - destruct (collect vs) as [ls|e'']; [done|]. intros [= ->].
    destruct IH as (w & Hin & Hw); [done|].
    exists w. split; [by apply list_elem_of_further|done].
  - intros [= ->]. exists v. split; [apply list_elem_of_here|done].
Qed.

Section WalkFacts.
Variable pack : Package.t.
Variable treeType : option TreeType.
Variable swcParseSync : string → outcome Swc.Program.
Variable babelParseSync : string → outcome (option Babel.File).
Variable extname : string → string.
Variable readFileSync : string → string.

Local Abbreviation callParse := (callParse swcParseSync babelParseSync).
Local Abbreviation parseImports := (parseImports pack treeType swcParseSync babelParseSync).
Local Abbreviation updateImports := (updateImports pack treeType swcParseSync babelParseSync).
Local Abbreviation applyOperation :=
  (applyOperation pack treeType swcParseSync babelParseSync extname readFileSync).
Local Abbreviation applyPatch :=
  (applyPatch pack treeType swcParseSync babelParseSync extname readFileSync).
Local Abbreviation build :=
  (build pack treeType swcParseSync babelParseSync extname readFileSync).
Local Abbreviation visit := (visit pack treeType).

(** Either the walk is the one of the selected backend, or the AST is the
    other backend's and the walk is refused. *)
Lemma parseImports_cases this relativePath source :
  (∃ ast, parseImports this relativePath source =
          collect (map (visit relativePath) (visitedNodes ast))) ∨
  parseImports this relativePath source = Return [] ∨
  parseImports this relativePath source = Throw wrongAst ∨
  (∃ err, parseImports this relativePath source = Throw err ∧
          Err.name err ≠ "SyntaxError").
Proof.
  destruct (callParse this source) as [[ast|]|err] eqn:Hparse.
  - assert (ofSelectedBackend pack ast ∨ ¬ ofSelectedBackend pack ast) as [Hsel|Hsel].
    { destruct ast; simpl; destruct (Package.useSwcParser pack); auto. }
    + left. exists ast. by apply parseImports_collect.
    + right. right. left. unfold parseImports. rewrite Hparse.
      destruct ast; simpl in *; by destruct (Package.useSwcParser pack).
  - right. left. unfold parseImports. by rewrite Hparse.
  - unfold parseImports. rewrite Hparse. case_bool_decide; [|by right; left].
    right. right. right. by exists err.
Qed.

Lemma visit_tagged relativePath n l :
  visit relativePath n [] = Return l →
  Forall (taggedWith relativePath pack treeType) l.
Proof.
  destruct n as [n|n]; simpl.
  - destruct (Babel.importCallArguments n) as [args|] eqn:Hargs.
    + destruct (babel_enter_import_call pack treeType relativePath _ _ Hargs)
        as (callee & -> & Hen).
      simpl in Hen. simpl. rewrite Hen.
      destruct args as [|a args]; [done|]. simpl.
      destruct a as [| | |[|q [|q' qs]] es| | | |]; unfold raise, push; simpl;
        intros Hl; simplify_eq; by apply Forall_singleton.
    + destruct n as [| | | |callee arguments| |d [s|]| ];
        unfold Babel.enter, Babel.visitImportDeclaration,
          Babel.visitExportNamedDeclaration, push, skip;
        intros Hl; simplify_eq;
        try apply Forall_nil_2; try by apply Forall_singleton.
      rewrite babel_no_import_call in Hl by done. unfold skip in Hl.
      simplify_eq. apply Forall_nil_2.
  - destruct (Swc.importCallArguments n) as [args|] eqn:Hargs.
    + rewrite (swc_enter_import_call pack treeType relativePath _ _ Hargs).
      unfold Swc.visitCallExpression. rewrite swc_importCallOf_import.
      destruct args as [|a args]; [done|]. simpl.
      destruct a as [| |[|q [|q' qs]] es| | | | |]; unfold raise, push; simpl;
        intros Hl; simplify_eq; by apply Forall_singleton.
    + unfold Swc.importCallArguments in Hargs.
      destruct n as [| | | |callee arguments| |[s|]| ];
        unfold Swc.enter, Swc.visitCallExpression, Swc.visitImportDeclaration,
          Swc.visitExportNamedDeclaration, push, skip;
        intros Hl; simplify_eq;
        try apply Forall_nil_2; try by apply Forall_singleton.
      destruct (Swc.importCallOf _); simplify_eq/=. apply Forall_nil_2.
Qed.

Lemma visit_throw_name relativePath n e :
  visit relativePath n [] = Throw e →
  Err.name e = "Error" ∨ Err.name e = "TypeError".
Proof.
  destruct n as [n|n]; simpl.
  - destruct (Babel.importCallArguments n) as [args|] eqn:Hargs.
    + destruct (babel_enter_import_call pack treeType relativePath _ _ Hargs)
        as (callee & -> & Hen).
      simpl in Hen. simpl. rewrite Hen.
      destruct args as [|a args]; [intros [= <-]; by right|]. simpl.
      destruct a as [| | |[|q [|q' qs]] es| | | |]; unfold raise, push; simpl;
        intros He; simplify_eq; by left.
    + destruct n as [| | | |callee arguments| |d [s|]| ]; try done.
      unfold Babel.enter. by rewrite babel_no_import_call.
  - destruct (Swc.importCallArguments n) as [args|] eqn:Hargs.
    + rewrite (swc_enter_import_call pack treeType relativePath _ _ Hargs).
      unfold Swc.visitCallExpression. rewrite swc_importCallOf_import.
      destruct args as [|a args]; [intros [= <-]; by right|]. simpl.
      destruct a as [| |[|q [|q' qs]] es| | | | |]; unfold raise, push; simpl;
        intros He; simplify_eq; by left.
    + unfold Swc.importCallArguments in Hargs.
      destruct n as [| | | |callee arguments| |[s|]| ]; try done.
      unfold Swc.enter, Swc.visitCallExpression.
      by destruct (Swc.importCallOf _).
Qed.

Lemma parseImports_tagged this relativePath source found :
  parseImports this relativePath source = Return found →
  Forall (taggedWith relativePath pack treeType) found.
Proof.
  destruct (parseImports_cases this relativePath source)
    as [[ast ->]|[->|[->|(err & -> & _)]]]; try done.
  - apply collect_Forall, Forall_map, Forall_forall.
    intros n _ l. apply visit_tagged.
  - intros [= <-]. apply Forall_nil_2.
Qed.

(** X11: every record [parseImports] returns for a file carries the path
    of that file and the package and tree type of the analyzer. *)
Theorem parseImports_tags_records this relativePath source found :
  parseImports this relativePath source = Return found →
  Forall (taggedWith relativePath pack treeType) found.
Proof.
  destruct (parseImports_cases this relativePath source)
    as [[ast ->]|[->|[->|(err & -> & _)]]]; try done.
  - apply collect_Forall, Forall_map, Forall_forall.
    intros n _ l. apply visit_tagged.
  - intros [= <-]. apply Forall_nil_2.
Qed.

Lemma parseImports_throw_name this relativePath source err :
  parseImports this relativePath source = Throw err →
  Err.name err ≠ "SyntaxError".
Proof.
  destruct (parseImports_cases this relativePath source)
    as [[ast ->]|[->|[->|(err' & -> & Hname)]]]; try done.
  - intros (v & Hin & Hv)%collect_Throw_elem.
    apply list_elem_of_fmap in Hin as (n & -> & _).
    by destruct (visit_throw_name _ _ _ Hv) as [-> | ->].
  - by intros [= <-].
  - by intros [= <-].
Qed.

(** X12: no error [build] throws is named [SyntaxError]: an error of
    that name thrown by the parse function is caught for its file, and
    neither [setupParser] nor the walk throws one. *)
Theorem build_never_throws_SyntaxError this patch err this' :
  build this patch = (Throw err, this') →
  Err.name err ≠ "SyntaxError".
Proof.
  assert (∀ patch this this' err,
            applyPatch this patch = (Throw err, this') →
            Err.name err ≠ "SyntaxError") as Hpatch.
  { clear. induction patch as [|[operation relativePath] patch IH];
      intros this this' err; simpl; [done|].
    destruct (applyOperation this operation relativePath)
      as [[[]|err'] this''] eqn:Hop; [apply IH|].
    intros [= -> ->]. unfold applyOperation in Hop.
    destruct operation; try destruct (matchesExtension pack extname relativePath);
      try done.
    all: unfold updateImports in Hop.
    all: destruct (parseImports this relativePath (readFileSync relativePath))
           eqn:Hpi; [by case_bool_decide|].
    all: simplify_eq. all: by apply parseImports_throw_name in Hpi. }
  unfold build, setupParser.
  destruct (parse this); [apply Hpatch|].
  destruct (Package.useSwcParser pack); [apply Hpatch|].
  case_bool_decide; [apply Hpatch|]. by intros [= <- <-].
Qed.

(** X13: under either backend the records of a file are those of its
    top-level statements, one statement after the other: the walk of a
    body [body1 ++ body2] returns the records of [body1] followed by those
    of [body2], and throws what the first of the two that throws throws. *)
Theorem walk_of_appended_bodies relativePath :
  (∀ body1 body2,
     Babel.traverse pack treeType relativePath (Babel.mkFile (body1 ++ body2)) [] =
     match Babel.traverse pack treeType relativePath (Babel.mkFile body1) [] with
     | Return found1 =>
         match Babel.traverse pack treeType relativePath (Babel.mkFile body2) [] with
         | Return found2 => Return (found1 ++ found2)
         | Throw err => Throw err
         end
     | Throw err => Throw err
     end) ∧
  (∀ body1 body2,
     Swc.visitProgram pack treeType relativePath (Swc.mkProgram (body1 ++ body2)) [] =
     match Swc.visitProgram pack treeType relativePath (Swc.mkProgram body1) [] with
     | Return found1 =>
         match Swc.visitProgram pack treeType relativePath (Swc.mkProgram body2) [] with
         | Return found2 => Return (found1 ++ found2)
         | Throw err => Throw err
         end
     | Throw err => Throw err
     end).
Proof.
  split; intros body1 body2.
  - rewrite !BabelFacts.traverse_collect. unfold Babel.fileNodes. simpl.
    rewrite flat_map_app, map_app, collect_app.
    destruct (collect (map _ (flat_map Babel.nodes body1))); [|done].
    unfold run. by destruct (collect _).
  - rewrite !SwcFacts.visitProgram_collect. unfold Swc.programNodes. simpl.
    rewrite flat_map_app, map_app, collect_app.
    destruct (collect (map _ (flat_map Swc.visited body1))); [|done].
    unfold run. by destruct (collect _).
Qed.

End WalkFacts.

(** X16: the options of the package win over the two defaults of
    [swcParser]: an option the package sets is passed to [parseSync] as the
    package has it, and [dynamicImport] and [decorators] are [true] when
    the package does not set them. *)
Theorem swcParseOptions_lookup swcOptions key :
  NoDup (map fst swcOptions) →
  JsMap.get key (swcParseOptions swcOptions) =
  match JsMap.get key swcOptions with
  | Some value => Some value
  | None =>
      if bool_decide (key = "dynamicImport") || bool_decide (key = "decorators")
      then Some (JsBool true) else None
  end.
Proof.
  intros Hnd. unfold swcParseOptions, objectAssign.
  assert (∀ target,
            JsMap.get key (foldl (λ t kv, JsMap.set kv.1 kv.2 t) target swcOptions) =
            match JsMap.get key swcOptions with
            | Some value => Some value
            | None => JsMap.get key target
            end) as Hassign.
  { induction swcOptions as [|[k v] source IH]; intros target; simpl; [done|].
    simpl in Hnd. apply NoDup_cons in Hnd as [Hk Hnd]. rewrite IH by done.
    apply get_None_keys in Hk.
    case_bool_decide as Hkey.
    - subst key. rewrite Hk. apply JsMapFacts.get_set_eq.
    - destruct (JsMap.get key source); [done|].
      by apply JsMapFacts.get_set_ne. }
  rewrite Hassign. destruct (JsMap.get key swcOptions); [done|]. simpl.
  repeat case_bool_decide; simplify_eq; done.
Qed.

(** ** Nothing lost, nothing invented *)

Lemma collect_concat vs found :
  collect vs = Return found →
  ∃ pushed, Forall2 (λ (v : Visit) l, v [] = Return l) vs pushed ∧
            found = concat pushed.
Proof.
  revert found. induction vs as [|v vs IH]; simpl; intros found.
  - intros [= <-]. exists []. split; [apply Forall2_nil_2|done].
  - destruct (v []) as [l|] eqn:Hv; [|done].
    destruct (collect vs) as [ls|]; [|done]. intros [= <-].
    destruct (IH ls) as (pushed & Hall & ->); [done|].
    exists (l :: pushed). split; [by apply Forall2_cons_2|done].
Qed.

Section StoreFacts.
Variable pack : Package.t.
Variable treeType : option TreeType.
Variable swcParseSync : string → outcome Swc.Program.
Variable babelParseSync : string → outcome (option Babel.File).

Local Abbreviation callParse := (callParse swcParseSync babelParseSync).
Local Abbreviation parseImports := (parseImports pack treeType swcParseSync babelParseSync).
Local Abbreviation updateImports := (updateImports pack treeType swcParseSync babelParseSync).
Local Abbreviation reachable := (reachable pack treeType swcParseSync babelParseSync).
Local Abbreviation visit := (visit pack treeType).

(** X18: [parseImports] returns the records its visitors push, all of
    them, no other, and in the order of the walk: the result is the
    concatenation, over the visited nodes in order, of what the visitor of
    each node pushes. *)
Theorem parseImports_records_are_pushed this relativePath source ast found :
  reachable this →
  callParse this source = Return (Some ast) →
  parseImports this relativePath source = Return found →
  ∃ pushed,
    Forall2 (λ n l, visit relativePath n [] = Return l) (visitedNodes ast) pushed ∧
    found = concat pushed.
Proof.
  intros Hreach Hparse.
  rewrite (parseImports_collect _ _ _ _ _ _ _ ast Hparse)
    by eauto using callParse_selected, parser_matches.
  intros (pushed & Hall & ->)%collect_concat.
  exists pushed. split; [|done]. by apply Forall2_fmap_l in Hall.
Qed.

(** X19: the entry the store holds for a path holds only records of that
    path, of the analyzer's package and tree type; so does the
    aggregate. *)
Theorem store_entries_tagged this relativePath stored :
  reachable this →
  JsMap.get relativePath (paths this) = Some stored →
  Forall (taggedWith relativePath pack treeType) stored.
Proof.
  intros Hreach. revert relativePath stored.
  induction Hreach as [|this _ IH|this _ IH|this removed _ IH|this updated source _ IH];
    intros relativePath stored.
  - done.
  - unfold setupParser. destruct (parse this); [apply IH|].
    destruct (Package.useSwcParser pack); [apply IH|]. case_bool_decide; apply IH.
  - unfold imports. destruct (modules this); apply IH.
  - unfold removeImports.
    destruct (JsMap.get removed (paths this)) eqn:Hget; [|apply IH]. simpl.
    destruct (decide (removed = relativePath)) as [->|Hne].
    + by rewrite JsMapFacts.get_delete_eq.
    + rewrite JsMapFacts.get_delete_ne by done. apply IH.
  - unfold updateImports.
    destruct (parseImports this updated source) as [newImports|] eqn:Hpi; [|apply IH].
    case_bool_decide; [|apply IH]. simpl.
    destruct (decide (updated = relativePath)) as [->|Hne].
    + rewrite JsMapFacts.get_set_eq. intros [= <-].
      eapply parseImports_tagged, Hpi.
    + rewrite JsMapFacts.get_set_ne by done. apply IH.
Qed.

End StoreFacts.

(** ** Rebuilds *)

Section Rebuild.
Variable pack : Package.t.
Variable treeType : option TreeType.
Variable swcParseSync : string → outcome Swc.Program.
Variable babelParseSync : string → outcome (option Babel.File).
Variable extname : string → string.
Variable readFileSync : string → string.

Local Abbreviation parseImports := (parseImports pack treeType swcParseSync babelParseSync).
Local Abbreviation updateImports := (updateImports pack treeType swcParseSync babelParseSync).
Local Abbreviation applyOperation :=
  (applyOperation pack treeType swcParseSync babelParseSync extname readFileSync).
Local Abbreviation applyPatch :=
  (applyPatch pack treeType swcParseSync babelParseSync extname readFileSync).
Local Abbreviation tracked := (matchesExtension pack extname).

Lemma applyOperation_parse this operation relativePath :
  parse (snd (applyOperation this operation relativePath)) = parse this.
Proof.
  unfold applyOperation.
  destruct operation; try destruct (tracked relativePath); simpl; try done.
  - unfold removeImports. by destruct (JsMap.get _ _).
  - apply updateImports_parse.
  - apply updateImports_parse.
Qed.

(** What an update of [updated] leaves under [relativePath], when the entry
    of [relativePath] is already what its file parses to. *)
Lemma updateImports_keeps_entry this this' updated relativePath found :
  updateImports this updated (readFileSync updated) = (Return (), this') →
  parseImports this relativePath (readFileSync relativePath) = Return found →
  JsMap.get relativePath (paths this) = Some found →
  JsMap.get relativePath (paths this') = Some found.
Proof.
  unfold updateImports. intros Hup Hpi Hget.
  destruct (parseImports this updated (readFileSync updated)) as [new|] eqn:Hnew;
    [|done].
  case_bool_decide as Hne; simplify_eq/=; [|done].
  destruct (decide (updated = relativePath)) as [->|Hother].
  - rewrite JsMapFacts.get_set_eq. congruence.
  - by rewrite JsMapFacts.get_set_ne.
Qed.

Lemma applyPatch_keeps_entry patch this this' relativePath found :
  applyPatch this patch = (Return (), this') →
  Forall (λ op, op.1 ≠ unlink) patch →
  parseImports this relativePath (readFileSync relativePath) = Return found →
  JsMap.get relativePath (paths this) = Some found →
  JsMap.get relativePath (paths this') = Some found.
Proof.
  revert this. induction patch as [|[operation updated] patch IH];
    intros this Hpatch Hno Hpi Hget; simpl in Hpatch; [by simplify_eq|].
  apply Forall_cons in Hno as [Hop Hno]. simpl in Hop.
  pose proof (applyOperation_parse this operation updated) as Hparse.
  destruct (applyOperation this operation updated) as [[[]|err] this1] eqn:Hstep;
    [|done].
  apply (IH this1); [done|done| |].
  - by rewrite (parseImports_parse_only _ _ _ _ this).
  - unfold applyOperation in Hstep.
    destruct operation; try done; try (by simplify_eq);
      (destruct (tracked updated); [|by simplify_eq]);
      by apply (updateImports_keeps_entry this this1 updated).
Qed.

Lemma applyPatch_stores patch this this' relativePath :
  applyPatch this patch = (Return (), this') →
  Forall (λ op, op.1 ≠ unlink) patch →
  relativePath ∈ updatedPaths patch →
  tracked relativePath = true →
  ∃ found,
    parseImports this relativePath (readFileSync relativePath) = Return found ∧
    JsMap.get relativePath (paths this') = Some found.
Proof.
  revert this. induction patch as [|[operation updated] patch IH];
    intros this Hpatch Hno Hin Htracked; simpl in *; [by apply elem_of_nil in Hin|].
  apply Forall_cons in Hno as [Hop Hno]. simpl in Hop.
  pose proof (applyOperation_parse this operation updated) as Hparse.
  destruct (applyOperation this operation updated) as [[[]|err] this1] eqn:Hstep;
    [|done].
  simpl in Hparse.
  assert (∀ found,
            parseImports this1 relativePath (readFileSync relativePath) = Return found ↔
            parseImports this relativePath (readFileSync relativePath) = Return found)
    as Hsame by (intros found; by rewrite (parseImports_parse_only _ _ _ _ this)).
  apply elem_of_app in Hin as [Hhere|Hlater].
  - assert (updated = relativePath ∧
            updateImports this updated (readFileSync updated) = (Return (), this1))
      as [-> Hup].
    { unfold applyOperation in Hstep.
      destruct operation; simpl in Hhere;
        try (by apply elem_of_nil in Hhere);
        apply list_elem_of_singleton in Hhere as ->;
        by rewrite Htracked in Hstep. }
    unfold updateImports in Hup.
    destruct (parseImports this relativePath (readFileSync relativePath))
      as [found|] eqn:Hpi; [|done].
    exists found. split; [done|].
    apply (applyPatch_keeps_entry patch this1); [done|done|by apply Hsame|].
    case_bool_decide as Hne; simplify_eq/=; [apply JsMapFacts.get_set_eq|done].
  - destruct (IH this1) as (found & Hpi & Hget); [done..|].
    exists found. split; [by apply Hsame|done].
Qed.

Lemma applyPatch_stored patch this :
  Forall (λ op, op.1 ≠ unlink) patch →
  (∀ relativePath,
     relativePath ∈ updatedPaths patch → tracked relativePath = true →
     ∃ found,
       parseImports this relativePath (readFileSync relativePath) = Return found ∧
       JsMap.get relativePath (paths this) = Some found) →
  applyPatch this patch = (Return (), this).
Proof.
  induction patch as [|[operation updated] patch IH]; intros Hno Hstored; simpl;
    [done|].
  apply Forall_cons in Hno as [Hop Hno]. simpl in Hop.
  assert (applyOperation this operation updated = (Return (), this)) as ->.
  { unfold applyOperation.
    destruct operation; try done;
      (destruct (tracked updated) eqn:Htracked; [|done]);
      (destruct (Hstored updated) as (found & Hpi & Hget);
       [simpl; apply list_elem_of_here|done|]);
      unfold updateImports; rewrite Hpi, Hget;
      by rewrite bool_decide_eq_false_2 by (by intros []). }
  apply IH; [done|]. intros relativePath Hin. apply Hstored.
  simpl. apply elem_of_app. by right.
Qed.

(** X20: a rebuild over unchanged files is free: after a patch without
    removals was applied, a second patch that creates or changes only
    files the first one created or changed, their content being the same,
    returns the analyzer exactly as the first one left it: no entry is
    replaced and a cached aggregate stays cached. *)
Theorem applyPatch_again_is_free this this' patch1 patch2 :
  applyPatch this patch1 = (Return (), this') →
  Forall (λ op, op.1 ≠ unlink) patch1 →
  Forall (λ op, op.1 ≠ unlink) patch2 →
  updatedPaths patch2 ⊆ updatedPaths patch1 →
  applyPatch this' patch2 = (Return (), this') ∧
  applyPatch (snd (imports this')) patch2 = (Return (), snd (imports this')).
Proof.
  intros Hpatch Hno1 Hno2 Hsub.
  assert (parse this' = parse this) as Hparse.
  { clear -Hpatch. revert this Hpatch.
    induction patch1 as [|[operation updated] patch IH]; intros this Hpatch;
      simpl in Hpatch; [by simplify_eq|].
    pose proof (applyOperation_parse this operation updated) as Hstep.
    destruct (applyOperation this operation updated) as [[[]|err] this1]; [|done].
    rewrite (IH this1) by done. exact Hstep. }
  assert (∀ relativePath,
            relativePath ∈ updatedPaths patch2 → tracked relativePath = true →
            ∃ found,
              parseImports this' relativePath (readFileSync relativePath) =
              Return found ∧
              JsMap.get relativePath (paths this') = Some found) as Hstored.
  { intros relativePath Hin Htracked.
    destruct (applyPatch_stores patch1 this this' relativePath)
      as (found & Hpi & Hget); [done|done|by apply Hsub|done|].
    exists found. split; [|done].
    by rewrite (parseImports_parse_only _ _ _ _ this). }
  split; [by apply applyPatch_stored|].
  apply applyPatch_stored; [done|].
  intros relativePath Hin Htracked.
  destruct (Hstored relativePath Hin Htracked) as (found & Hpi & Hget).
  exists found. unfold imports. destruct (modules this'); simpl; [done|].
  split; [|done]. by rewrite (parseImports_parse_only _ _ _ _ this').
Qed.

End Rebuild.

(** * The further properties on the sample files *)

Lemma reachable_updatedAnalyzer :
  reachable babelPackage None sampleSwcParseSync sampleBabelParseSync updatedAnalyzer.
Proof. apply reachable_updateImports, reachable_babelAnalyzer. Defined.

Lemma reachable_twoFilesAnalyzer :
  reachable babelPackage None sampleSwcParseSync sampleBabelParseSync twoFilesAnalyzer.
Proof. apply reachable_updateImports, reachable_updatedAnalyzer. Defined.

(** X1 on the analyzer that holds two files and no cached aggregate. *)
Lemma imports_is_flattened_store_witness :
  twoFilesAnalyzer =
  mkAnalyzer None [("a.js", declarationsFound); ("b.js", templateFound)]
             (Some babel7Parser) ∧
  imports twoFilesAnalyzer =
  (declarationsFound ++ templateFound,
   mkAnalyzer (Some (declarationsFound ++ templateFound))
              [("a.js", declarationsFound); ("b.js", templateFound)]
              (Some babel7Parser)).
Proof.
  split; [reflexivity|].
  exact (imports_is_flattened_store babelPackage None sampleSwcParseSync
           sampleBabelParseSync twoFilesAnalyzer reachable_twoFilesAnalyzer).
Defined.

(** X2: removing ["a.js"] from the two files. *)
Lemma removeImports_takes_records_out_witness :
  paths twoFilesAnalyzer = [] ++ ("a.js", declarationsFound) :: [("b.js", templateFound)] ∧
  fst (imports twoFilesAnalyzer) = declarationsFound ++ templateFound ∧
  fst (imports (removeImports twoFilesAnalyzer "a.js")) = templateFound.
Proof.
  split; [reflexivity|].
  exact (removeImports_takes_records_out babelPackage None sampleSwcParseSync
           sampleBabelParseSync twoFilesAnalyzer "a.js" declarationsFound
           [] [("b.js", templateFound)] reachable_twoFilesAnalyzer eq_refl).
Defined.

(** X3: creating ["b.js"] next to ["a.js"]. *)
Lemma updateImports_appends_new_file_witness :
  JsMap.get "b.js" (paths updatedAnalyzer) = None ∧
  parseImports babelPackage None sampleSwcParseSync sampleBabelParseSync
    updatedAnalyzer "b.js" templateSource = Return templateFound ∧
  fst (imports (snd (updateImports babelPackage None sampleSwcParseSync
                       sampleBabelParseSync updatedAnalyzer "b.js" templateSource))) =
  declarationsFound ++ templateFound.
Proof.
  split; [reflexivity|]. split; [reflexivity|].
  exact (updateImports_appends_new_file babelPackage None sampleSwcParseSync
           sampleBabelParseSync updatedAnalyzer "b.js" templateSource templateFound
           reachable_updatedAnalyzer eq_refl eq_refl).
Defined.

(** X4: changing ["a.js"], the first of the two files. *)
Lemma updateImports_replaces_in_place_witness :
  parseImports babelPackage None sampleSwcParseSync sampleBabelParseSync
    twoFilesAnalyzer "a.js" macroSource = Return macroFound ∧
  fst (imports (snd (updateImports babelPackage None sampleSwcParseSync
                       sampleBabelParseSync twoFilesAnalyzer "a.js" macroSource))) =
  macroFound ++ templateFound.
Proof.
  split; [reflexivity|].
  exact (updateImports_replaces_in_place babelPackage None sampleSwcParseSync
           sampleBabelParseSync twoFilesAnalyzer "a.js" macroSource declarationsFound
           macroFound [] [("b.js", templateFound)]
           reachable_twoFilesAnalyzer eq_refl eq_refl).
Defined.

(** X5: submitting [declarationsSource] for ["a.js"] twice. *)
Lemma updateImports_resubmission_witness :
  updateImports babelPackage None sampleSwcParseSync sampleBabelParseSync
    babelAnalyzer "a.js" declarationsSource = (Return (), updatedAnalyzer) ∧
  updateImports babelPackage None sampleSwcParseSync sampleBabelParseSync
    updatedAnalyzer "a.js" declarationsSource = (Return (), updatedAnalyzer).
Proof.
  split; [reflexivity|].
  exact (proj1 (updateImports_resubmission babelPackage None sampleSwcParseSync
                  sampleBabelParseSync babelAnalyzer updatedAnalyzer "a.js"
                  declarationsSource eq_refl)).
Defined.

(** X6: creating ["b.js"] and removing it again. *)
Lemma updateImports_then_removeImports_witness :
  JsMap.get "b.js" (paths updatedAnalyzer) = None ∧
  paths (removeImports twoFilesAnalyzer "b.js") = paths updatedAnalyzer.
Proof.
  split; [reflexivity|].
  exact (proj1 (updateImports_then_removeImports babelPackage None sampleSwcParseSync
                  sampleBabelParseSync updatedAnalyzer "b.js" templateSource
                  templateFound eq_refl eq_refl)).
Defined.

(** X8: a patch over style sheets, for a package that tracks [js] and
    [ts]. *)
Lemma applyPatch_untracked_witness :
  matchesExtension babelPackage cssExtname "styles/app.css" = false ∧
  applyPatch babelPackage None sampleSwcParseSync sampleBabelParseSync
    cssExtname (λ _, brokenSource) twoFilesAnalyzer cssPatch =
  (Return (), twoFilesAnalyzer).
Proof.
  split; [reflexivity|].
  apply applyPatch_untracked.
  repeat (apply Forall_cons_2; [reflexivity|]). apply Forall_nil_2.
Defined.

(** X10: the first build of a tree that holds ["a.js"]. *)
Lemma build_reachable_witness :
  snd (build babelPackage None sampleSwcParseSync sampleBabelParseSync
         sampleExtname (λ _, declarationsSource) new [(mkdir, "lib"); (create, "a.js")]) =
  updatedAnalyzer ∧
  reachable babelPackage None sampleSwcParseSync sampleBabelParseSync
    (snd (build babelPackage None sampleSwcParseSync sampleBabelParseSync
            sampleExtname (λ _, declarationsSource) new
            [(mkdir, "lib"); (create, "a.js")])).
Proof.
  split; [reflexivity|].
  apply build_reachable, reachable_new.
Defined.

(** X11 on the records of [declarationsSource]. *)
Lemma parseImports_tags_records_witness :
  parseImports babelPackage None sampleSwcParseSync sampleBabelParseSync
    babelAnalyzer "a.js" declarationsSource = Return declarationsFound ∧
  Forall (taggedWith "a.js" babelPackage None) declarationsFound.
Proof.
  split; [reflexivity|].
  exact (parseImports_tags_records babelPackage None sampleSwcParseSync
           sampleBabelParseSync babelAnalyzer "a.js" declarationsSource
           declarationsFound eq_refl).
Defined.

(** X12 on a build that ends with the error of the swc parser. *)
Lemma build_never_throws_SyntaxError_witness :
  build swcPackage None sampleSwcParseSync sampleBabelParseSync
    sampleExtname (λ _, brokenSource) new [(create, "a.js")] =
  (Throw (Err.Error "failed to parse module"), swcAnalyzer) ∧
  Err.name (Err.Error "failed to parse module") ≠ "SyntaxError".
Proof.
  split; [reflexivity|].
  exact (build_never_throws_SyntaxError swcPackage None sampleSwcParseSync
           sampleBabelParseSync sampleExtname (λ _, brokenSource) new [(create, "a.js")]
           _ swcAnalyzer eq_refl).
Defined.

(** X16 on a package that switches the decorators off. *)
Lemma swcParseOptions_lookup_witness :
  NoDup (map fst sampleSwcOptions) ∧
  JsMap.get "decorators" (swcParseOptions sampleSwcOptions) = Some (JsBool false) ∧
  JsMap.get "dynamicImport" (swcParseOptions sampleSwcOptions) = Some (JsBool true) ∧
  JsMap.get "syntax" (swcParseOptions sampleSwcOptions) = Some (JsString "typescript") ∧
  JsMap.get "jsx" (swcParseOptions sampleSwcOptions) = None.
Proof.
  assert (NoDup (map fst sampleSwcOptions)) as Hnd.
  { simpl. apply NoDup_cons_2; [|apply NoDup_singleton].
    intros Hin%list_elem_of_singleton. discriminate Hin. }
  split; [exact Hnd|].
  split; [exact (swcParseOptions_lookup sampleSwcOptions "decorators" Hnd)|].
  split; [exact (swcParseOptions_lookup sampleSwcOptions "dynamicImport" Hnd)|].
  split; [exact (swcParseOptions_lookup sampleSwcOptions "syntax" Hnd)|].
  exact (swcParseOptions_lookup sampleSwcOptions "jsx" Hnd).
Defined.

(** X18 on [declarationsSource]: of its seven nodes, the import
    declaration and the export with a source push one record each. *)
Lemma parseImports_records_are_pushed_witness :
  callParse sampleSwcParseSync sampleBabelParseSync babelAnalyzer declarationsSource =
  Return (Some (File declarationsFile)) ∧
  length (visitedNodes (File declarationsFile)) = 7%nat ∧
  ∃ pushed,
    Forall2 (λ n l, visit babelPackage None "a.js" n [] = Return l)
            (visitedNodes (File declarationsFile)) pushed ∧
    declarationsFound = concat pushed.
Proof.
  split; [reflexivity|]. split; [reflexivity|].
  exact (parseImports_records_are_pushed babelPackage None sampleSwcParseSync
           sampleBabelParseSync babelAnalyzer "a.js" declarationsSource
           (File declarationsFile) declarationsFound
           reachable_babelAnalyzer eq_refl eq_refl).
Defined.

(** X19 on the entry of ["b.js"]. *)
Lemma store_entries_tagged_witness :
  JsMap.get "b.js" (paths twoFilesAnalyzer) = Some templateFound ∧
  Forall (taggedWith "b.js" babelPackage None) templateFound.
Proof.
  split; [reflexivity|].
  exact (store_entries_tagged babelPackage None sampleSwcParseSync sampleBabelParseSync
           twoFilesAnalyzer "b.js" templateFound reachable_twoFilesAnalyzer eq_refl).
Defined.

(** X20: the first build of two files, then a rebuild that finds both
    touched but unchanged. *)
Lemma applyPatch_again_is_free_witness :
  applyPatch babelPackage None sampleSwcParseSync sampleBabelParseSync
    sampleExtname sampleReadFileSync babelAnalyzer firstPatch =
  (Return (), builtAnalyzer) ∧
  map fst (paths builtAnalyzer) = ["a.js"; "lib/b.js"] ∧
  applyPatch babelPackage None sampleSwcParseSync sampleBabelParseSync
    sampleExtname sampleReadFileSync builtAnalyzer secondPatch =
  (Return (), builtAnalyzer).
Proof.
  split; [reflexivity|]. split; [reflexivity|].
  refine (proj1 (applyPatch_again_is_free babelPackage None sampleSwcParseSync
                   sampleBabelParseSync sampleExtname sampleReadFileSync
                   babelAnalyzer builtAnalyzer firstPatch secondPatch
                   eq_refl _ _ _)).
  - repeat (apply Forall_cons_2; [discriminate|]). apply Forall_nil_2.
  - repeat (apply Forall_cons_2; [discriminate|]). apply Forall_nil_2.
  - simpl. intros p [->|[->|[]%elem_of_nil]%elem_of_cons]%elem_of_cons.
    + apply list_elem_of_further, list_elem_of_here.
    + apply list_elem_of_here.
Defined.
